(** * The content life cycle of [@ui5/fs/Resource] (lib/Resource.js)

    A shallow embedding of the [Resource] class: the object graph the class
    works on (resources, source handles, stat objects, readable streams and
    promises) is an explicit store, every method is a computation in a
    state-and-exception monad over that store, and the two places where the
    JavaScript code suspends (the listeners of [_getBufferFromStream] and
    the [await] of [clone]) are explicit steps of the event loop. *)

From stdpp Require Import base option list strings.
From Stdlib Require Import ZArith Lia Ascii.
From Stdlib.Strings Require Import Byte.


(** ** Values *)

(** A Node.js [Buffer]: a sequence of bytes. A [Buffer] is an object, hence
    truthy even when it is empty. The class never writes into a buffer it
    holds, and neither does the model: a buffer is a value. *)
Abbreviation Buffer := (list byte).

(** Object identity: an address in one of the heaps of the [World]. *)
Abbreviation ref := nat.

(** The functions of the Node.js runtime the class calls. *)
Class Runtime : Type := {
  (** [Buffer.from(string, "utf8")] *)
  Buffer_from : string -> Buffer;
  (** [buffer.toString()] *)
  Buffer_toString : Buffer -> string;
  (** [path.posix.basename(virPath)] *)
  posix_basename : string -> string
}.

(** The errors the class throws, with the data their messages are built
    from; [StreamError] is whatever a stream passes to its error listeners
    and [TypeError] is a property access on [undefined] or [null]. *)
Inductive Error : Type :=
| MissingPath
| ConflictingContentParameters
| ContentDrained (path : string)
| NoContent (path : string)
| StreamDrained (path : string)
| ProjectAlreadyAssigned (attempted path existing : string)
| StreamError (err : string)
| TypeError.

Definition message (e : Error) : string :=
  match e with
  | MissingPath => "Cannot create Resource: path parameter missing"
  | ConflictingContentParameters =>
      "Cannot create Resource: Please set only one content parameter. " +:+
      "Buffer, string, stream or createStream"
  | ContentDrained path =>
      "Content of Resource " +:+ path +:+ " has been drained. " +:+
      "This might be caused by requesting resource content after a content stream has been " +:+
      "requested and no new content (e.g. a new stream) has been set."
  | NoContent path => "Resource " +:+ path +:+ " has no content"
  | StreamDrained path =>
      "Content stream of Resource " +:+ path +:+ " is flagged as drained."
  | ProjectAlreadyAssigned attempted path existing =>
      "Unable to assign project " +:+ attempted +:+ " to resource " +:+ path +:+ ": " +:+
      "Resource is already associated to project " +:+ existing
  | StreamError err => err
  | TypeError => "TypeError"
  end.

(** The [source] handle of an adapter: an object with a [modified] flag. *)
Record Source : Type := { modified : bool }.

(** A project, as far as the class looks at it: the result of its
    [getName()] method and the string a template literal turns the object
    into (its [toString()]; the text [[object Object]] for an object that
    does not define one). *)
Module Project.
Record t : Type := { getName : string; toString : string }.
End Project.
Abbreviation Project := Project.t.

(** Truthiness of a field that holds an object, [undefined] or [null]. *)
Definition truthy {A} (o : option A) : bool :=
  match o with Some _ => true | None => false end.

(** [fs.Stats] or a similar object: the type predicates of the default
    object of the constructor and its eight time stamps. *)
Record StatInfo : Type := {
  isFile : bool;
  isDirectory : bool;
  isBlockDevice : bool;
  isCharacterDevice : bool;
  isSymbolicLink : bool;
  isFIFO : bool;
  isSocket : bool;
  atimeMs : Z;
  mtimeMs : Z;
  ctimeMs : Z;
  birthtimeMs : Z;
  atime : Z;
  mtime : Z;
  ctime : Z;
  birthtime : Z
}.

(** How a readable stream finishes: it emits [end], it emits [error], or it
    stays open for ever. *)
Inductive Terminal : Type :=
| End
| Failure (err : string)
| Never.

(** The three listeners one call of [_getBufferFromStream] registers share
    a closure: the resource ([this]), the promise they settle and the
    [buffers] array they fill. *)
Record Listener : Type := {
  l_this : ref;
  l_promise : ref;
  buffers : list Buffer
}.

(** A readable stream: the chunks it has still to emit, how it finishes,
    whether it has finished, and the listeners registered on it. *)
Record Readable : Type := {
  chunks : list Buffer;
  terminal : Terminal;
  finished : bool;
  listeners : list Listener
}.

(** A [createStream] callback: every call returns a new stream with the
    same content. [factory_id] tells the callbacks apart in the log of
    calls. *)
Record Factory : Type := {
  factory_id : nat;
  factory_chunks : list Buffer;
  factory_terminal : Terminal
}.

(** A promise of a buffer. *)
Inductive PromiseState : Type :=
| Pending
| Fulfilled (buffer : Buffer)
| Rejected (reason : Error).

(** The fields of a [Resource] instance. [None] stands for [undefined] and
    [null] alike (the class only tests them for truthiness), and the two
    drained flags are [false] while they are [undefined]. *)
Record Resource : Type := {
  _path : string;
  _name : string;
  _source : option ref;
  __project : option Project;
  _statInfo : ref;
  _createStream : option Factory;
  _stream : option ref;
  _buffer : option Buffer;
  _contentDrained : bool;
  _streamDrained : bool;
  _buffering : option ref;
  _collections : list string
}.

(** ** The store *)

Record World : Type := {
  resources : list Resource;
  sources : list Source;
  stats : list StatInfo;
  streams : list Readable;
  promises : list PromiseState;
  (** the [createStream] callbacks called so far, latest first *)
  calls : list nat;
  (** what [new Date().getTime()] returns *)
  now : Z
}.

Definition empty_world (t : Z) : World :=
  {| resources := []; sources := []; stats := []; streams := [];
     promises := []; calls := []; now := t |}.

Definition with_resources (f : list Resource -> list Resource) (w : World) : World :=
  {| resources := f (resources w); sources := sources w; stats := stats w;
     streams := streams w; promises := promises w; calls := calls w; now := now w |}.

Definition with_sources (f : list Source -> list Source) (w : World) : World :=
  {| resources := resources w; sources := f (sources w); stats := stats w;
     streams := streams w; promises := promises w; calls := calls w; now := now w |}.

Definition with_stats (f : list StatInfo -> list StatInfo) (w : World) : World :=
  {| resources := resources w; sources := sources w; stats := f (stats w);
     streams := streams w; promises := promises w; calls := calls w; now := now w |}.

Definition with_streams (f : list Readable -> list Readable) (w : World) : World :=
  {| resources := resources w; sources := sources w; stats := stats w;
     streams := f (streams w); promises := promises w; calls := calls w; now := now w |}.

Definition with_promises (f : list PromiseState -> list PromiseState) (w : World) : World :=
  {| resources := resources w; sources := sources w; stats := stats w;
     streams := streams w; promises := f (promises w); calls := calls w; now := now w |}.

Definition with_calls (f : list nat -> list nat) (w : World) : World :=
  {| resources := resources w; sources := sources w; stats := stats w;
     streams := streams w; promises := promises w; calls := f (calls w); now := now w |}.

(** ** The monad of methods: state and exceptions *)

Definition M (A : Type) : Type := World -> (Error + A) * World.

Definition ret {A} (a : A) : M A := fun w => (inr a, w).

Definition throw {A} (e : Error) : M A := fun w => (inl e, w).

Definition bind {A B} (m : M A) (k : A -> M B) : M B :=
  fun w => match m w with
           | (inl e, w') => (inl e, w')
           | (inr a, w') => k a w'
           end.

(** [try { m } catch (e) { h e }]: what [m] did to the store before it
    threw stays done. *)
Definition catch {A} (m : M A) (h : Error -> M A) : M A :=
  fun w => match m w with
           | (inl e, w') => h e w'
           | (inr a, w') => (inr a, w')
           end.

Notation "'let*' x ':=' m 'in' k" := (bind m (fun x => k))
  (at level 10, x pattern, m at level 100, k at level 200).
Notation "m ';;' k" := (bind m (fun _ => k))
  (at level 100, k at level 200, right associativity).

(** Reading the store. A reference outside its heap is a property access
    on something that is not an object. *)
Definition deref {A} (heap : World -> list A) (r : ref) : M A :=
  fun w => match heap w !! r with
           | Some x => (inr x, w)
           | None => (inl TypeError, w)
           end.

Definition update (f : World -> World) : M unit := fun w => (inr tt, f w).

Definition modifyResource (r : ref) (f : Resource -> Resource) : M unit :=
  let* x := deref resources r in
  update (with_resources (<[r := f x]>)).

Definition alloc_resource (x : Resource) : M ref :=
  fun w => (inr (length (resources w)), with_resources (fun l => l ++ [x]) w).

Definition alloc_stat (x : StatInfo) : M ref :=
  fun w => (inr (length (stats w)), with_stats (fun l => l ++ [x]) w).

Definition alloc_stream (x : Readable) : M ref :=
  fun w => (inr (length (streams w)), with_streams (fun l => l ++ [x]) w).

Definition alloc_promise (x : PromiseState) : M ref :=
  fun w => (inr (length (promises w)), with_promises (fun l => l ++ [x]) w).

(** Assignments to the fields of a resource. *)
Definition set_path (p n : string) (x : Resource) : Resource :=
  {| _path := p; _name := n; _source := _source x; __project := __project x;
     _statInfo := _statInfo x; _createStream := _createStream x; _stream := _stream x;
     _buffer := _buffer x; _contentDrained := _contentDrained x;
     _streamDrained := _streamDrained x; _buffering := _buffering x;
     _collections := _collections x |}.

Definition set_project (p : option Project) (x : Resource) : Resource :=
  {| _path := _path x; _name := _name x; _source := _source x; __project := p;
     _statInfo := _statInfo x; _createStream := _createStream x; _stream := _stream x;
     _buffer := _buffer x; _contentDrained := _contentDrained x;
     _streamDrained := _streamDrained x; _buffering := _buffering x;
     _collections := _collections x |}.

(** The five assignments that end [setBuffer] and [setStream]. *)
Definition set_content (f : option Factory) (s : option ref) (b : option Buffer)
    (x : Resource) : Resource :=
  {| _path := _path x; _name := _name x; _source := _source x; __project := __project x;
     _statInfo := _statInfo x; _createStream := f; _stream := s;
     _buffer := b; _contentDrained := false;
     _streamDrained := false; _buffering := _buffering x;
     _collections := _collections x |}.

Definition set_contentDrained (d : bool) (x : Resource) : Resource :=
  {| _path := _path x; _name := _name x; _source := _source x; __project := __project x;
     _statInfo := _statInfo x; _createStream := _createStream x; _stream := _stream x;
     _buffer := _buffer x; _contentDrained := d;
     _streamDrained := _streamDrained x; _buffering := _buffering x;
     _collections := _collections x |}.

Definition set_streamDrained (d : bool) (x : Resource) : Resource :=
  {| _path := _path x; _name := _name x; _source := _source x; __project := __project x;
     _statInfo := _statInfo x; _createStream := _createStream x; _stream := _stream x;
     _buffer := _buffer x; _contentDrained := _contentDrained x;
     _streamDrained := d; _buffering := _buffering x;
     _collections := _collections x |}.

Definition set_buffering (p : option ref) (x : Resource) : Resource :=
  {| _path := _path x; _name := _name x; _source := _source x; __project := __project x;
     _statInfo := _statInfo x; _createStream := _createStream x; _stream := _stream x;
     _buffer := _buffer x; _contentDrained := _contentDrained x;
     _streamDrained := _streamDrained x; _buffering := p;
     _collections := _collections x |}.

Definition set_collections (c : list string) (x : Resource) : Resource :=
  {| _path := _path x; _name := _name x; _source := _source x; __project := __project x;
     _statInfo := _statInfo x; _createStream := _createStream x; _stream := _stream x;
     _buffer := _buffer x; _contentDrained := _contentDrained x;
     _streamDrained := _streamDrained x; _buffering := _buffering x;
     _collections := c |}.

Definition set_createStream (f : option Factory) (x : Resource) : Resource :=
  {| _path := _path x; _name := _name x; _source := _source x; __project := __project x;
     _statInfo := _statInfo x; _createStream := f; _stream := _stream x;
     _buffer := _buffer x; _contentDrained := _contentDrained x;
     _streamDrained := _streamDrained x; _buffering := _buffering x;
     _collections := _collections x |}.

Definition set_stream (s : option ref) (x : Resource) : Resource :=
  {| _path := _path x; _name := _name x; _source := _source x; __project := __project x;
     _statInfo := _statInfo x; _createStream := _createStream x; _stream := s;
     _buffer := _buffer x; _contentDrained := _contentDrained x;
     _streamDrained := _streamDrained x; _buffering := _buffering x;
     _collections := _collections x |}.

(** ** Promises and streams *)

(** [resolve(buffer)] and [reject(err)]: a settled promise stays as it is. *)
Definition settle (p : ref) (s : PromiseState) : M unit :=
  let* old := deref promises p in
  match old with
  | Pending => update (with_promises (<[p := s]>))
  | _ => ret tt
  end.

(** What an [async] method hands to its caller: a promise that is settled
    already, or one that settles like promise [p] of the store, its value
    passed through [f]. *)
Inductive Promise (A : Type) : Type :=
| Resolve (a : A)
| Reject (e : Error)
| Then (p : ref) (f : Buffer -> A).
Arguments Resolve {A} a.
Arguments Reject {A} e.
Arguments Then {A} p f.

(** [q.then(f)], for an [f] that does not throw. *)
Definition then_ {A B} (f : A -> B) (q : Promise A) : Promise B :=
  match q with
  | Resolve a => Resolve (f a)
  | Reject e => Reject e
  | Then p g => Then p (fun b => f (g b))
  end.

(** What awaiting such a promise gives in store [w]: nothing yet, a value
    or an exception. *)
Definition await {A} (w : World) (q : Promise A) : option (Error + A) :=
  match q with
  | Resolve a => Some (inr a)
  | Reject e => Some (inl e)
  | Then p f =>
      match promises w !! p with
      | Some (Fulfilled b) => Some (inr (f b))
      | Some (Rejected e) => Some (inl e)
      | Some Pending => None
      | None => None
      end
  end.

(** The body of an [async] function: an exception rejects the promise. *)
Definition async {A} (m : M (Promise A)) : M (Promise A) :=
  catch m (fun e => ret (Reject e)).

(** A stream nobody has touched: it has all its chunks and no listener. *)
Definition untouched (cs : list Buffer) (t : Terminal) : Readable :=
  {| chunks := cs; terminal := t; finished := false; listeners := [] |}.

(** What a stream that is written [buffer] once emits as [data]: the
    buffer as one chunk, and nothing for the empty buffer (a chunk of no
    bytes is not queued for reading). *)
Definition written (buffer : Buffer) : list Buffer :=
  match buffer with
  | [] => []
  | _ :: _ => [buffer]
  end.

(** [new stream.PassThrough()] followed by [.end(buffer)]. *)
Definition PassThrough_end (buffer : Buffer) : M ref :=
  alloc_stream (untouched (written buffer) End).

(** Calling a [createStream] callback. *)
Definition call (f : Factory) : M ref :=
  update (with_calls (cons (factory_id f)));;
  alloc_stream (untouched (factory_chunks f) (factory_terminal f)).

(** [contentStream.on("data", ...)], [.on("error", ...)], [.on("end", ...)]
    of [_getBufferFromStream], as one registration. *)
Definition on (s : ref) (l : Listener) : M unit :=
  let* st := deref streams s in
  update (with_streams (<[s := {| chunks := chunks st; terminal := terminal st;
                                  finished := finished st;
                                  listeners := listeners st ++ [l] |}]>)).

(** The object the constructor destructures. A missing property is [None];
    [path] and [string] are strings, and the empty string is falsy. *)
Module Parameters.
Record t : Type := {
  path : option String.string;
  statInfo : option ref;
  buffer : option Buffer;
  createStream : option Factory;
  stream : option ref;
  project : option Project;
  source : option ref;
  string : option String.string
}.
End Parameters.
Abbreviation Parameters := Parameters.t.

Definition nonempty (o : option string) : bool :=
  match o with Some (String _ _) => true | _ => false end.

(** The object the constructor falls back to when [statInfo] is falsy. *)
Definition default_statInfo (t : Z) : StatInfo :=
  {| isFile := true; isDirectory := false; isBlockDevice := false;
     isCharacterDevice := false; isSymbolicLink := false; isFIFO := false;
     isSocket := false;
     atimeMs := t; mtimeMs := t; ctimeMs := t; birthtimeMs := t;
     atime := t; mtime := t; ctime := t; birthtime := t |}.

Section Methods.
Context `{Runtime}.

(** ** The methods of the class *)

Definition _getNameFromPath (virPath : string) : string := posix_basename virPath.

Definition setBuffer (this : ref) (buffer : Buffer) : M unit :=
  let* x := deref resources this in
  match _source x with
  | Some s =>
      let* src := deref sources s in
      if negb (modified src)
      then update (with_sources (<[s := {| modified := true |}]>))
      else ret tt
  | None => ret tt
  end;;
  modifyResource this (set_content None None (Some buffer)).

Definition setString (this : ref) (string : string) : M unit :=
  setBuffer this (Buffer_from string).

(** The argument of [setStream]: a stream, or a function ([typeof stream
    === "function"]). *)
Inductive StreamOrCallback : Type :=
| AStream (s : ref)
| ACallback (f : Factory).

Definition setStream (this : ref) (stream : StreamOrCallback) : M unit :=
  let* x := deref resources this in
  match _source x with
  | Some s =>
      let* src := deref sources s in
      if negb (modified src)
      then update (with_sources (<[s := {| modified := true |}]>))
      else ret tt
  | None => ret tt
  end;;
  match stream with
  | ACallback f => modifyResource this (set_content (Some f) None None)
  | AStream s => modifyResource this (set_content None (Some s) None)
  end.

(** [_getStream] returns [this._stream] as it is, hence possibly nothing. *)
Definition _getStream (this : ref) : M (option ref) :=
  let* x := deref resources this in
  if _streamDrained x then throw (StreamDrained (_path x))
  else match _createStream x with
       | Some f => let* s := call f in ret (Some s)
       | None =>
           modifyResource this (set_streamDrained true);;
           ret (_stream x)
       end.

(** The executor of the promise of [_getBufferFromStream], up to the
    registration of the listeners. *)
Definition executor (this p : ref) : M unit :=
  let* contentStream := _getStream this in
  match contentStream with
  | Some s => on s {| l_this := this; l_promise := p; buffers := [] |}
  | None => throw TypeError
  end.

Definition _getBufferFromStream (this : ref) : M ref :=
  let* x := deref resources this in
  match _buffering x with
  | Some p => ret p
  | None =>
      let* p := alloc_promise Pending in
      catch (executor this p) (fun err => settle p (Rejected err));;
      modifyResource this (set_buffering (Some p));;
      ret p
  end.

Definition getBuffer (this : ref) : M (Promise Buffer) :=
  async (
    let* x := deref resources this in
    if _contentDrained x then throw (ContentDrained (_path x))
    else match _buffer x with
         | Some b => ret (Resolve b)
         | None =>
             if truthy (_createStream x) || truthy (_stream x)
             then let* p := _getBufferFromStream this in ret (Then p id)
             else throw (NoContent (_path x))
         end).

Definition getString (this : ref) : M (Promise string) :=
  let* x := deref resources this in
  if _contentDrained x then ret (Reject (ContentDrained (_path x)))
  else
    let* q := getBuffer this in
    ret (then_ Buffer_toString q).

Definition getStream (this : ref) : M ref :=
  let* x := deref resources this in
  if _contentDrained x then throw (ContentDrained (_path x))
  else
    let* contentStream :=
      match _buffer x with
      | Some b => let* bufferStream := PassThrough_end b in ret (Some bufferStream)
      | None =>
          if truthy (_createStream x) || truthy (_stream x)
          then _getStream this
          else ret None
      end in
    match contentStream with
    | None => throw (NoContent (_path x))
    | Some s =>
        modifyResource this (set_contentDrained true);;
        ret s
    end.


Definition setPath (this : ref) (path : string) : M unit :=
  modifyResource this (set_path path (_getNameFromPath path)).

Definition getName (this : ref) : M string :=
  let* x := deref resources this in ret (_name x).

Definition getStatInfo (this : ref) : M ref :=
  let* x := deref resources this in ret (_statInfo x).

Definition getSize (this : ref) : M (Promise nat) :=
  async (
    let* x := deref resources this in
    if negb (truthy (_buffer x)) && negb (truthy (_createStream x)) && negb (truthy (_stream x))
    then ret (Resolve 0)
    else
      let* buffer := getBuffer this in
      ret (then_ (@length byte) buffer)).

Definition pushCollection (this : ref) (name : string) : M unit :=
  let* x := deref resources this in
  modifyResource this (set_collections (_collections x ++ [name])).

Definition getProject (this : ref) : M (option Project) :=
  let* x := deref resources this in ret (__project x).

Definition setProject (this : ref) (project : Project) : M unit :=
  let* x := deref resources this in
  match __project x with
  | Some existing =>
      throw (ProjectAlreadyAssigned (Project.getName project) (_path x)
                                    (Project.toString existing))
  | None => modifyResource this (set_project (Some project))
  end.

Definition hasProject (this : ref) : M bool :=
  let* x := deref resources this in ret (negb (negb (truthy (__project x)))).

Definition constructor (o : Parameters) : M ref :=
  let buffer := truthy (Parameters.buffer o) in
  let string := nonempty (Parameters.string o) in
  let createStream := truthy (Parameters.createStream o) in
  let stream := truthy (Parameters.stream o) in
  match Parameters.path o with
  | Some (String c path') =>
      let path := String c path' in
      if buffer && createStream || buffer && string || string && createStream ||
         buffer && stream || string && stream || createStream && stream
      then throw ConflictingContentParameters
      else
        match Parameters.source o with
        | Some s =>
            deref sources s;;
            update (with_sources (<[s := {| modified := false |}]>))
        | None => ret tt
        end;;
        let* statInfo :=
          match Parameters.statInfo o with
          | Some st => ret st
          | None => let* t := (fun w => (inr (now w), w)) in alloc_stat (default_statInfo t)
          end in
        let* this := alloc_resource
          {| _path := path; _name := _getNameFromPath path;
             _source := Parameters.source o; __project := Parameters.project o;
             _statInfo := statInfo;
             _createStream := None; _stream := None; _buffer := None;
             _contentDrained := false; _streamDrained := false;
             _buffering := None; _collections := [] |} in
        match Parameters.createStream o, Parameters.stream o,
              Parameters.buffer o, Parameters.string o with
        | Some f, _, _, _ => modifyResource this (set_createStream (Some f))
        | None, Some s, _, _ => modifyResource this (set_stream (Some s))
        | None, None, Some b, _ => setBuffer this b
        | None, None, None, Some str => setString this str
        | None, None, None, None => ret tt
        end;;
        ret this
  | _ => throw MissingPath
  end.

(** The [options] object of [_getCloneOptions]: the path, the copy of the
    stat object and the source handle, then the content. *)
Definition clone_options (x : Resource) (copy : ref)
    (b : option Buffer) (f : option Factory) : Parameters :=
  {| Parameters.path := Some (_path x); Parameters.statInfo := Some copy;
     Parameters.buffer := b; Parameters.createStream := f;
     Parameters.stream := None; Parameters.project := None;
     Parameters.source := _source x; Parameters.string := None |}.

(** [_getCloneOptions] up to its [await]: the options, or the options that
    wait for the buffer of the stream. [clone(this._statInfo)] is a new
    object with the same fields. *)
Definition _getCloneOptions (this : ref) : M (Promise Parameters) :=
  async (
    let* x := deref resources this in
    let* st := deref stats (_statInfo x) in
    let* copy := alloc_stat st in
    match _stream x, _createStream x, _buffer x with
    | Some _, _, _ =>
        let* p := _getBufferFromStream this in
        ret (Then p (fun b => clone_options x copy (Some b) None))
    | None, Some f, _ => ret (Resolve (clone_options x copy None (Some f)))
    | None, None, Some b => ret (Resolve (clone_options x copy (Some b) None))
    | None, None, None => ret (Resolve (clone_options x copy None None))
    end).

(** [clone] is [async] and awaits the options before it calls the
    constructor: [clone] is the part that runs at the call, and [clone_new]
    the part that runs once the options are there ([None] while they are
    not). *)
Definition clone (this : ref) : M (Promise Parameters) := _getCloneOptions this.

Definition clone_new (options : Promise Parameters) : M (option ref) :=
  fun w => match await w options with
           | None => (inr None, w)
           | Some (inl e) => (inl e, w)
           | Some (inr o) => (let* c := constructor o in ret (Some c)) w
           end.

(** [getSource] returns the source handle, or a new object without a
    [modified] property when there is none: [None] here. *)
Definition getSource (this : ref) : M (option ref) :=
  let* x := deref resources this in ret (_source x).

(** ** The trace tree *)

(** An object made by [Object.create(null)] whose properties are objects
    of the same kind: the properties with their values, in the order they
    were added. *)
#[warnings="-register-all"]
Inductive Tree : Type :=
| Object (properties : list (string * Tree)).

(** [object[key] = value] on the properties of an object: a property that
    is there gets the value, a new one comes last. *)
Fixpoint assign (key : string) (value : Tree) (properties : list (string * Tree)) :
    list (string * Tree) :=
  match properties with
  | [] => [(key, value)]
  | (k, v) :: rest =>
      if String.eqb k key then (k, value) :: rest
      else (k, v) :: assign key value rest
  end.

(** [pointer[key] = value], where [pointer] is the object reached from
    [tree] through the properties [pointer] names, outermost first. *)
Fixpoint assign_at (pointer : list string) (key : string) (value : Tree) (tree : Tree) :
    Tree :=
  match pointer, tree with
  | [], Object properties => Object (assign key value properties)
  | k :: pointer', Object properties =>
      Object (map (fun kv => if String.eqb kv.1 k
                             then (kv.1, assign_at pointer' key value kv.2)
                             else kv)
                  properties)
  end.

(** The loop of [getPathTree], with [i] one above the index of the source:
    it runs while [i - 1 >= 0]. *)
Fixpoint getPathTree_loop (collections : list string) (i : nat) (pointer : list string)
    (tree : Tree) : Tree :=
  match i with
  | O => tree
  | S i' =>
      match collections !! i' with
      | Some name =>
          getPathTree_loop collections i' (pointer ++ [name])
            (assign_at pointer name (Object []) tree)
      | None => tree
      end
  end.

Definition getPathTree (this : ref) : M Tree :=
  let* x := deref resources this in
  let tree := Object [] in
  let tree := assign_at [] (_path x) (Object []) tree in
  ret (getPathTree_loop (_collections x) (length (_collections x)) [_path x] tree).

(** ** The event loop: what a stream does to its listeners *)

(** The [data] listener: [buffers.push(data)]. *)
Definition on_data (data : Buffer) (l : Listener) : Listener :=
  {| l_this := l_this l; l_promise := l_promise l; buffers := buffers l ++ [data] |}.

(** The [error] listener: [reject(err)]. *)
Definition on_error (err : string) (l : Listener) : M unit :=
  settle (l_promise l) (Rejected (StreamError err)).

(** The [end] listener. *)
Definition on_end (l : Listener) : M unit :=
  let this := l_this l in
  let buffer := concat (buffers l) in
  let* x := deref resources this in
  let* modified :=
    match _source x with
    | Some s => let* src := deref sources s in ret (Some (modified src))
    | None => ret None
    end in
  setBuffer this buffer;;
  let* x := deref resources this in
  match _source x with
  | Some s => update (with_sources (<[s := {| modified := default false modified |}]>))
  | None => ret tt
  end;;
  modifyResource this (set_buffering None);;
  settle (l_promise l) (Fulfilled buffer).

Fixpoint each {A} (f : A -> M unit) (l : list A) : M unit :=
  match l with
  | [] => ret tt
  | a :: l' => f a;; each f l'
  end.

(** One event of stream [s]. A stream nobody listens to is paused; a
    flowing stream emits its next chunk to every listener, and after the
    last chunk [end] or [error], once. *)
Definition emit (s : ref) : M unit :=
  let* st := deref streams s in
  if finished st then ret tt
  else match listeners st with
       | [] => ret tt
       | _ :: _ =>
           match chunks st with
           | data :: rest =>
               update (with_streams (<[s := {| chunks := rest; terminal := terminal st;
                                               finished := false;
                                               listeners := map (on_data data) (listeners st) |}]>))
           | [] =>
               match terminal st with
               | Never => ret tt
               | End =>
                   update (with_streams (<[s := {| chunks := []; terminal := End;
                                                   finished := true;
                                                   listeners := listeners st |}]>));;
                   each on_end (listeners st)
               | Failure err =>
                   update (with_streams (<[s := {| chunks := []; terminal := Failure err;
                                                   finished := true;
                                                   listeners := listeners st |}]>));;
                   each (on_error err) (listeners st)
               end
           end
       end.

(** [n] events of stream [s] in a row. *)
Fixpoint emits (n : nat) (s : ref) : M unit :=
  match n with
  | O => ret tt
  | S n' => emit s;; emits n' s
  end.

(** ** Runs of a program that uses the class *)

(** What the code around a resource can do next: call a method, or let
    the event loop deliver one event of a stream. *)
Inductive Op : Type :=
| GetBuffer (r : ref)
| GetString (r : ref)
| GetStream (r : ref)
| GetSize (r : ref)
| SetBuffer (r : ref) (buffer : Buffer)
| SetString (r : ref) (string : string)
| SetStream (r : ref) (stream : StreamOrCallback)
| SetPath (r : ref) (path : string)
| PushCollection (r : ref) (name : string)
| SetProject (r : ref) (project : Project)
| Clone (r : ref)
| CloneNew (options : Promise Parameters)
| New (o : Parameters)
| Emit (s : ref).

(** The store after [op]; what a method did before it threw stays done. *)
Definition step (op : Op) (w : World) : World :=
  match op with
  | GetBuffer r => (getBuffer r w).2
  | GetString r => (getString r w).2
  | GetStream r => (getStream r w).2
  | GetSize r => (getSize r w).2
  | SetBuffer r b => (setBuffer r b w).2
  | SetString r str => (setString r str w).2
  | SetStream r a => (setStream r a w).2
  | SetPath r p => (setPath r p w).2
  | PushCollection r n => (pushCollection r n w).2
  | SetProject r p => (setProject r p w).2
  | Clone r => (clone r w).2
  | CloneNew q => (clone_new q w).2
  | New o => (constructor o w).2
  | Emit s => (emit s w).2
  end.

(** Whether [op], in store [w], calls [setBuffer], [setString] or
    [setStream] on resource [this]: the call is the operation itself, or
    the [end] listener of a buffering of [this] is about to run. *)
Definition sets_content (this : ref) (op : Op) (w : World) : bool :=
  match op with
  | SetBuffer r _ | SetString r _ | SetStream r _ => Nat.eqb r this
  | Emit s =>
      match streams w !! s with
      | Some st =>
          negb (finished st) &&
          match chunks st, terminal st with
          | [], End => existsb (fun l => Nat.eqb (l_this l) this) (listeners st)
          | _, _ => false
          end
      | None => false
      end
  | _ => false
  end.

(** A run in which nothing sets the content of [this]: no call of a setter
    on it, and no [end] event that runs an [end] listener of it. *)
Inductive quiet (this : ref) : World -> list Op -> World -> Prop :=
| quiet_nil w : quiet this w [] w
| quiet_cons w op ops w' :
    sets_content this op w = false ->
    quiet this (step op w) ops w' ->
    quiet this w (op :: ops) w'.

(** Readers of one resource and the events of its stream, interleaved:
    [Read] is one more call of [getBuffer], [Tick] one event of stream
    [s]. The promises of the readers come back in the order of the
    calls. *)
Inductive Turn : Type := Read | Tick.

Fixpoint readers (this s : ref) (turns : list Turn) : M (list (Promise Buffer)) :=
  match turns with
  | [] => ret []
  | Read :: turns' =>
      let* q := getBuffer this in
      let* qs := readers this s turns' in
      ret (q :: qs)
  | Tick :: turns' => emit s;; readers this s turns'
  end.

End Methods.

(** ** A runtime to compute with *)

(** The last segment of a path that is not empty: what
    [path.posix.basename] returns when it is given no extension. *)
Fixpoint basename_from (seg : string) (p : string) : string :=
  match p with
  | EmptyString => seg
  | String c p' =>
      if Ascii.eqb c "/"%char
      then match basename_from EmptyString p' with
           | EmptyString => seg
           | s => s
           end
      else basename_from (seg +:+ String c EmptyString) p'
  end.

(** A runtime for text in ASCII: a string is the bytes of its characters,
    which is how Node encodes and decodes it as long as every byte is
    below 128. The concrete resources below have such content only. On
    other buffers Node's decoder replaces what is not UTF-8, and this
    instance is not used there; the general statements are about every
    [Runtime]. *)
#[export] Instance bytes_runtime : Runtime := {
  Buffer_from := String.list_byte_of_string;
  Buffer_toString := String.string_of_list_byte;
  posix_basename := basename_from EmptyString
}.

(** * The vocabulary of the properties *)

(** ** Invariants of a run *)

(** [m] keeps [I]: whatever [m] returns or throws, [I] holds afterwards. *)
Definition keeps (I : World -> Prop) {A} (m : M A) : Prop :=
  forall w, I w -> I (m w).2.

(** The content of [this] is flagged as drained. *)
Definition drained (this : ref) (w : World) : Prop :=
  exists x, resources w !! this = Some x /\ _contentDrained x = true.

(** A field assignment that leaves a raised [_contentDrained] raised. *)
Definition keeps_flag (f : Resource -> Resource) : Prop :=
  forall x, _contentDrained x = true -> _contentDrained (f x) = true.

(** The store after the first statement of [setBuffer] and [setStream]. *)
Definition touch (source : option ref) (w : World) : World :=
  match source with
  | Some s => with_sources (<[s := {| modified := true |}]>) w
  | None => w
  end.

(** The source handle of a resource, when it has one, is in the store. *)
Definition source_ok (w : World) (x : Resource) : Prop :=
  forall s, _source x = Some s -> is_Some (sources w !! s).

(** The three ways to ask [this] for its content fail, each with the
    error that says the content has been drained; nothing else happens. *)
Definition fails_ContentDrained `{Runtime} (this : ref) (w : World) : Prop :=
  exists path,
    getBuffer this w = (inr (Reject (ContentDrained path)), w) /\
    getString this w = (inr (Reject (ContentDrained path)), w) /\
    getStream this w = (inl (ContentDrained path), w).

(** The calls that set new content. *)
Inductive content_setter (this : ref) : Op -> Prop :=
| setter_buffer b : content_setter this (SetBuffer this b)
| setter_string str : content_setter this (SetString this str)
| setter_stream a : content_setter this (SetStream this a).

(** ** Buffering a stream *)

(** The closure the listeners of a buffering share, at registration. *)
Definition listener (this p : ref) (got : list Buffer) : Listener :=
  {| l_this := this; l_promise := p; buffers := got |}.

(** The stream of a buffering after [k] of its chunks [cs]. *)
Definition flowing (this p : ref) (cs : list Buffer) (t : Terminal) (k : nat) : Readable :=
  {| chunks := drop k cs; terminal := t; finished := false;
     listeners := [listener this p (take k cs)] |}.

(** That stream after its last event. *)
Definition ended (this p : ref) (cs : list Buffer) (t : Terminal) : Readable :=
  {| chunks := []; terminal := t; finished := true;
     listeners := [listener this p cs] |}.

(** Resource [this], whose fields are [x], is buffering stream [s] into
    promise [p]: the stream has chunks [cs] to emit before it finishes
    with [t], and the listeners of [this] are the only ones. *)
Record buffering (this s p : ref) (cs : list Buffer) (t : Terminal)
    (x : Resource) (w : World) : Prop := {
  buffering_resource : resources w !! this = Some x;
  buffering_token : _buffering x = Some p;
  buffering_source : source_ok w x;
  buffering_stream : streams w !! s = Some (flowing this p cs t 0);
  buffering_promise : promises w !! p = Some Pending
}.

(** The store [k] chunks later. *)
Definition flying (this s p : ref) (cs : list Buffer) (t : Terminal) (k : nat)
    (w : World) : World :=
  with_streams (<[s := flowing this p cs t k]>) w.

(** The store after [end]: the buffer is the content of the resource. *)
Definition landed (this s p : ref) (cs : list Buffer) (x : Resource) (w : World) : World :=
  {| resources :=
       <[this := set_buffering None (set_content None None (Some (concat cs)) x)]>
         (resources w);
     sources := sources w; stats := stats w;
     streams := <[s := ended this p cs End]> (streams w);
     promises := <[p := Fulfilled (concat cs)]> (promises w);
     calls := calls w; now := now w |}.

(** The store after [error]. *)
Definition crashed (this s p : ref) (cs : list Buffer) (err : string) (w : World) : World :=
  {| resources := resources w; sources := sources w; stats := stats w;
     streams := <[s := ended this p cs (Failure err)]> (streams w);
     promises := <[p := Rejected (StreamError err)]> (promises w);
     calls := calls w; now := now w |}.

(** The store after [_getBufferFromStream] has started to buffer the
    stream [s] of a resource with fields [x]. *)
Definition started_stream (this s : ref) (cs : list Buffer) (t : Terminal)
    (x : Resource) (w : World) : World :=
  let p := length (promises w) in
  {| resources := <[this := set_buffering (Some p) (set_streamDrained true x)]> (resources w);
     sources := sources w; stats := stats w;
     streams := <[s := flowing this p cs t 0]> (streams w);
     promises := promises w ++ [Pending];
     calls := calls w; now := now w |}.

(** The same for a resource with a [createStream] callback [f]: the
    callback is called, once, and its stream is new. *)
Definition started_callback (this : ref) (f : Factory) (x : Resource) (w : World) : World :=
  let p := length (promises w) in
  {| resources := <[this := set_buffering (Some p) x]> (resources w);
     sources := sources w; stats := stats w;
     streams := streams w ++ [flowing this p (factory_chunks f) (factory_terminal f) 0];
     promises := promises w ++ [Pending];
     calls := factory_id f :: calls w; now := now w |}.

(** What a buffering can be up to: [k] chunks in, or over. *)
Inductive progress (this s p : ref) (cs : list Buffer) (x : Resource) (w : World) :
    World -> Prop :=
| in_flight k : k <= length cs -> progress this s p cs x w (flying this s p cs End k w)
| over : progress this s p cs x w (landed this s p cs x w).

(** The promise of a reader is that of the buffering, or the buffer. *)
Definition shared (p : ref) (cs : list Buffer) (q : Promise Buffer) : Prop :=
  q = Then p id \/ q = Resolve (concat cs).

(** The events and the calls of [getBuffer] among [turns]. *)
Fixpoint ticks (turns : list Turn) : nat :=
  match turns with
  | [] => 0
  | Read :: turns' => ticks turns'
  | Tick :: turns' => S (ticks turns')
  end.

Fixpoint reads (turns : list Turn) : nat :=
  match turns with
  | [] => 0
  | Read :: turns' => S (reads turns')
  | Tick :: turns' => reads turns'
  end.

(** The content of a resource with fields [x] is a stream nobody has
    touched, or a [createStream] callback; [cs] are the chunks the stream
    (or the stream of one call) emits, [t] is how it finishes. *)
Inductive stream_backed (w : World) (x : Resource) (cs : list Buffer) (t : Terminal) :
    Prop :=
| backed_by_stream s :
    _createStream x = None -> _stream x = Some s ->
    streams w !! s = Some (untouched cs t) ->
    stream_backed w x cs t
| backed_by_callback f :
    _createStream x = Some f -> factory_chunks f = cs -> factory_terminal f = t ->
    stream_backed w x cs t.

(** The [createStream] callbacks called once one of [x] has been. *)
Definition called_once (x : Resource) (w : World) : list nat :=
  match _createStream x with
  | Some f => factory_id f :: calls w
  | None => calls w
  end.

(** The stream [_getStream] returns for a resource with fields [x]: the
    new stream of the callback, or the stream of the resource. *)
Definition content_stream (x : Resource) (w : World) : ref :=
  match _createStream x with
  | Some _ => length (streams w)
  | None => default 0 (_stream x)
  end.

(** ** The constructor and [clone] *)

(** The test of the second [if] of the constructor. *)
Definition conflicting (o : Parameters) : bool :=
  let buffer := truthy (Parameters.buffer o) in
  let string := nonempty (Parameters.string o) in
  let createStream := truthy (Parameters.createStream o) in
  let stream := truthy (Parameters.stream o) in
  buffer && createStream || buffer && string || string && createStream ||
  buffer && stream || string && stream || createStream && stream.

(** The buffer the constructor passes to [setBuffer], when the chain of
    [else if] gets that far. *)
Definition initial_buffer `{Runtime} (o : Parameters) : option Buffer :=
  match Parameters.createStream o, Parameters.stream o,
        Parameters.buffer o, Parameters.string o with
  | None, None, Some b, _ => Some b
  | None, None, None, Some str => Some (Buffer_from str)
  | _, _, _, _ => None
  end.

(** The fields of the resource the constructor returns. *)
Definition initial `{Runtime} (o : Parameters) (w : World) : Resource :=
  let path := default EmptyString (Parameters.path o) in
  {| _path := path; _name := _getNameFromPath path;
     _source := Parameters.source o; __project := Parameters.project o;
     _statInfo := default (length (stats w)) (Parameters.statInfo o);
     _createStream := Parameters.createStream o;
     _stream := match Parameters.createStream o with
                | Some _ => None
                | None => Parameters.stream o
                end;
     _buffer := initial_buffer o;
     _contentDrained := false; _streamDrained := false;
     _buffering := None; _collections := [] |}.

(** The store the constructor leaves. *)
Definition constructed `{Runtime} (o : Parameters) (w : World) : World :=
  {| resources := resources w ++ [initial o w];
     sources := match Parameters.source o with
                | Some s => <[s := {| modified := truthy (initial_buffer o) |}]> (sources w)
                | None => sources w
                end;
     stats := match Parameters.statInfo o with
              | Some _ => stats w
              | None => stats w ++ [default_statInfo (now w)]
              end;
     streams := streams w; promises := promises w; calls := calls w; now := now w |}.

(** How many of the four content parameters the constructor sees as given
    (a [string] that is empty is falsy). *)
Definition given (o : Parameters) : nat :=
  (if truthy (Parameters.buffer o) then 1 else 0) +
  (if nonempty (Parameters.string o) then 1 else 0) +
  (if truthy (Parameters.stream o) then 1 else 0) +
  (if truthy (Parameters.createStream o) then 1 else 0).

(** None of the four content parameters is there at all. *)
Definition contentless (o : Parameters) : Prop :=
  Parameters.buffer o = None /\ Parameters.string o = None /\
  Parameters.stream o = None /\ Parameters.createStream o = None.

(** A path and nothing else. *)
Definition only_path (path : string) : Parameters :=
  {| Parameters.path := Some path; Parameters.statInfo := None;
     Parameters.buffer := None; Parameters.createStream := None;
     Parameters.stream := None; Parameters.project := None;
     Parameters.source := None; Parameters.string := None |}.

(** The parameters have a path that is not empty and a source handle, if
    any, that is in the store. *)
Definition well_formed (w : World) (o : Parameters) : Prop :=
  nonempty (Parameters.path o) = true /\
  (forall s, Parameters.source o = Some s -> is_Some (sources w !! s)).

(** Resource [c] of store [w'] is a clone of resource [this], whose fields
    were [x] and whose stat object was [st] in store [w]: a new object with
    the path and the source handle of [x], a stat object of its own with
    the fields of [st], no project, no collections, and content that can
    be read; setting the content of one of the two leaves the fields of
    the other alone. *)
Record cloned `{Runtime} (w : World) (this : ref) (x : Resource) (st : StatInfo)
    (c : ref) (w' : World) : Prop := {
  cloned_new : resources w !! c = None;
  cloned_fields :
    exists y, resources w' !! c = Some y /\
              _path y = _path x /\ _source y = _source x /\
              __project y = None /\ _collections y = [] /\
              _contentDrained y = false /\
              _statInfo y <> _statInfo x /\
              stats w !! _statInfo y = None /\
              stats w' !! _statInfo y = Some st /\
              stats w' !! _statInfo x = Some st;
  cloned_independent :
    forall op,
      (content_setter c op -> resources (step op w') !! this = resources w' !! this) /\
      (content_setter this op -> resources (step op w') !! c = resources w' !! c)
}.

(** ** Concrete resources *)

(** Parameters with path [/a.js] and the given content. *)
Definition parameters (b : option Buffer) (str : option string) (f : option Factory)
    (s : option ref) (prj : option Project) (src : option ref) : Parameters :=
  {| Parameters.path := Some "/a.js"; Parameters.statInfo := None;
     Parameters.buffer := b; Parameters.createStream := f;
     Parameters.stream := s; Parameters.project := prj;
     Parameters.source := src; Parameters.string := str |}.

(** The chunks [he] and [llo]. *)
Definition hello : list Buffer := [[x68; x65]; [x6c; x6c; x6f]].

(** A store with two streams, one that fails after a chunk and one that
    ends, and a source handle whose flag is up. *)
Definition two_streams : World :=
  {| resources := []; sources := [ {| modified := true |} ]; stats := [];
     streams := [untouched [[x68]] (Failure "EIO"); untouched hello End];
     promises := []; calls := []; now := 0 |}.

(** A callback whose streams emit these chunks and end. *)
Definition hello_callback : Factory :=
  {| factory_id := 7; factory_chunks := hello; factory_terminal := End |}.

(** A resource with a buffer, one with the stream that ends, one with a
    callback; each in its store, right after the constructor, with its
    fields. *)
Definition buffer_parameters : Parameters :=
  parameters (Some [x68; x69]) None None None None (Some 0).
Definition with_buffer : World := (constructor buffer_parameters two_streams).2.
Definition buffer_fields : Resource := initial buffer_parameters two_streams.

Definition stream_parameters : Parameters :=
  parameters None None None (Some 1) None (Some 0).
Definition with_stream : World := (constructor stream_parameters two_streams).2.
Definition stream_fields : Resource := initial stream_parameters two_streams.

Definition callback_parameters : Parameters :=
  parameters None None (Some hello_callback) None None (Some 0).
Definition with_callback : World := (constructor callback_parameters two_streams).2.
Definition callback_fields : Resource := initial callback_parameters two_streams.

(** A stream fails while it is buffered; then a new stream is set and the
    content is read again. The promises of the two reads, and the
    store. *)
Definition read_after_failure : M (Promise Buffer * Promise Buffer) :=
  let* r := constructor (parameters None None None (Some 0) None None) in
  let* q1 := getBuffer r in
  emits 2 0;;
  setStream r (AStream 1);;
  let* q2 := getBuffer r in
  emits 3 1;;
  ret (q1, q2).

(** A project is assigned to a resource that has one. Both are plain
    objects with a [getName] method. *)
Definition app : Project :=
  {| Project.getName := "app"; Project.toString := "[object Object]" |}.
Definition lib : Project :=
  {| Project.getName := "lib"; Project.toString := "[object Object]" |}.

Definition assign_twice : M unit :=
  let* r := constructor (parameters None None None None (Some app) None) in
  setProject r lib.

(** The size of a resource with a buffer, after its stream was asked for. *)
Definition size_after_getStream : M (Promise nat) :=
  let* r := constructor (parameters (Some [x68; x69]) None None None None None) in
  getStream r;;
  getSize r.

(** The content of resource [r] is read while nobody sets it: [getBuffer]
    starts a buffering, [getStream] returns a stream, [getBuffer] is
    called again, the stream [s] of the buffering emits its [events]
    events, and [getBuffer] and [getStream] are called once more. What
    the five calls return. *)
Definition stream_asked_while_buffering (r s : ref) (events : nat)
    : M (Promise Buffer * ref * Promise Buffer * Promise Buffer * ref) :=
  let* q1 := getBuffer r in
  let* s1 := getStream r in
  let* q2 := getBuffer r in
  emits events s;;
  let* q3 := getBuffer r in
  let* s2 := getStream r in
  ret (q1, s1, q2, q3, s2).

(** ** What every method keeps *)

(** One assignment to the fields of a resource, as the methods make them:
    the endings of [setBuffer] and [setStream], a drained flag that goes
    up, the token of a buffering, a new path, a project for a resource
    that has none, one more collection. *)
Inductive assignment : Resource -> Resource -> Prop :=
| assign_buffer b x : assignment x (set_content None None (Some b) x)
| assign_callback f x : assignment x (set_content (Some f) None None x)
| assign_stream s x : assignment x (set_content None (Some s) None x)
| assign_contentDrained x : assignment x (set_contentDrained true x)
| assign_streamDrained x : assignment x (set_streamDrained true x)
| assign_buffering p x : assignment x (set_buffering p x)
| assign_path p n x : assignment x (set_path p n x)
| assign_project p x : __project x = None -> assignment x (set_project (Some p) x)
| assign_collection n x : assignment x (set_collections (_collections x ++ [n]) x).

(** A property of the store that survives what the methods do to it:
    writes to the other heaps that leave the stat objects there are, one
    assignment to one resource, and the new resource of a constructor. *)
Record method_stable `{Runtime} (I : World -> Prop) : Prop := {
  stable_heaps :
    forall w w', resources w' = resources w -> stats w `prefix_of` stats w' ->
                 I w -> I w';
  stable_assignment :
    forall w r x x', resources w !! r = Some x -> assignment x x' ->
                     I w -> I (with_resources (<[r := x']>) w);
  stable_constructed :
    forall o w, nonempty (Parameters.path o) = true -> conflicting o = false ->
                I w -> I (constructed o w)
}.

(** The store after the operations [ops], first to last. *)
Definition run `{Runtime} (ops : list Op) (w : World) : World :=
  foldl (fun w op => step op w) w ops.

(** At most one of buffer, stream and callback is there. *)
Definition exclusive (x : Resource) : Prop :=
  (if truthy (_buffer x) then 1 else 0) + (if truthy (_stream x) then 1 else 0) +
  (if truthy (_createStream x) then 1 else 0) <= 1.

Definition all_exclusive (w : World) : Prop := Forall exclusive (resources w).

(** Resource [this] has stat object [st], with fields [info], and source
    handle [src]. *)
Definition identified (this st : ref) (info : StatInfo) (src : option ref)
    (w : World) : Prop :=
  exists x, resources w !! this = Some x /\ _statInfo x = st /\ _source x = src /\
            stats w !! st = Some info.

(** Resource [this] has project [project]. *)
Definition assigned (this : ref) (project : Project) (w : World) : Prop :=
  exists x, resources w !! this = Some x /\ __project x = Some project.

(** The collections of resource [this] start with [names]. *)
Definition collected (this : ref) (names : list string) (w : World) : Prop :=
  exists x, resources w !! this = Some x /\ names `prefix_of` _collections x.

(** The objects [names] nested one in the other, outermost first, around
    [inner]. *)
Fixpoint nest (names : list string) (inner : Tree) : Tree :=
  match names with
  | [] => inner
  | name :: names' => Object [(name, nest names' inner)]
  end.

(** The resource [op] is a method call on, if it is one. *)
Definition subject (op : Op) : option ref :=
  match op with
  | GetBuffer r | GetString r | GetStream r | GetSize r
  | SetBuffer r _ | SetString r _ | SetStream r _
  | SetPath r _ | PushCollection r _ | SetProject r _ | Clone r => Some r
  | CloneNew _ | New _ | Emit _ => None
  end.

(** Resource [other] has fields [v]. *)
Definition untouched_resource (other : ref) (v : Resource) (w : World) : Prop :=
  resources w !! other = Some v.

(** ** More concrete resources *)

(** Two resources are made and used: the first gets a stream, is read and
    is cloned while its stream is buffered. *)
Definition busy : list Op :=
  [New buffer_parameters; New callback_parameters; SetStream 0 (AStream 1);
   PushCollection 0 "workspace"; GetBuffer 0; Clone 0; Emit 1; GetStream 1;
   Emit 1; Emit 1; SetString 1 "x"; SetProject 0 app; SetPath 1 "/b.js"].

(** The resource with a buffer, found through two collections. *)
Definition found : World :=
  (pushCollection 0 "inner" (pushCollection 0 "outer" with_buffer).2).2.

(** A resource that is made with a project. *)
Definition with_project : World :=
  (constructor (parameters None None None None (Some app) None) (empty_world 0)).2.

(** The resource with the stream that ends, while the stream is buffered. *)
Definition buffering_hello : World := (getBuffer 0 with_stream).2.

(** * The properties *)

(** ** Invariants of a run *)

Section Keeps.
Context (I : World -> Prop).

Lemma keeps_ret {A} (a : A) : keeps I (ret a).
Proof. intros w Hw. exact Hw. Qed.

Lemma keeps_throw {A} (e : Error) : keeps I (@throw A e).
Proof. intros w Hw. exact Hw. Qed.

Lemma keeps_bind {A B} (m : M A) (k : A -> M B) :
  keeps I m -> (forall a, keeps I (k a)) -> keeps I (bind m k).
Proof.
  intros Hm Hk w Hw. unfold bind. specialize (Hm w Hw).
  destruct (m w) as [[e|a] w']; simpl in *; [exact Hm|]. apply Hk, Hm.
Qed.

Lemma keeps_catch {A} (m : M A) (h : Error -> M A) :
  keeps I m -> (forall e, keeps I (h e)) -> keeps I (catch m h).
Proof.
  intros Hm Hh w Hw. unfold catch. specialize (Hm w Hw).
  destruct (m w) as [[e|a] w']; simpl in *; [apply Hh, Hm|exact Hm].
Qed.

Lemma keeps_deref {A} (heap : World -> list A) r : keeps I (deref heap r).
Proof. intros w Hw. unfold deref. destruct (heap w !! r); exact Hw. Qed.

Lemma keeps_update f : (forall w, I w -> I (f w)) -> keeps I (update f).
Proof. intros Hf w Hw. apply Hf, Hw. Qed.

Lemma keeps_if {A} (b : bool) (m1 m2 : M A) :
  keeps I m1 -> keeps I m2 -> keeps I (if b then m1 else m2).
Proof. destruct b; auto. Qed.

Lemma keeps_each {A} (f : A -> M unit) (l : list A) :
  (forall a, a ∈ l -> keeps I (f a)) -> keeps I (each f l).
Proof.
  induction l as [|a l IH]; intros Hf; simpl.
  - apply keeps_ret.
  - apply keeps_bind; [apply Hf; left|intros _; apply IH].
    intros b Hb. apply Hf. right. exact Hb.
Qed.

End Keeps.

Section Drained.
Context `{Runtime} (this : ref).

Lemma drained_other_heaps w w' :
  resources w' = resources w -> drained this w -> drained this w'.
Proof. intros E (x & Hx & Hd). exists x. rewrite E. auto. Qed.

Lemma drained_alloc_resource x : keeps (drained this) (alloc_resource x).
Proof.
  intros w (y & Hy & Hd). exists y. split; [|exact Hd].
  simpl. apply lookup_app_l_Some, Hy.
Qed.

Lemma drained_modifyResource r f :
  r <> this \/ keeps_flag f -> keeps (drained this) (modifyResource r f).
Proof.
  intros Hrf w (y & Hy & Hd). unfold modifyResource, bind, deref, update.
  destruct (resources w !! r) as [x|] eqn:Hx; simpl; [|exists y; auto].
  destruct (decide (r = this)) as [->|Hne].
  - destruct Hrf as [?|Hf]; [done|]. exists (f x). split.
    + cbn. apply list_lookup_insert_eq. eapply lookup_lt_Some, Hx.
    + apply Hf. congruence.
  - exists y. split; [|exact Hd]. cbn. rewrite list_lookup_insert_ne; done.
Qed.

Lemma drained_update f :
  (forall w, resources (f w) = resources w) -> keeps (drained this) (update f).
Proof.
  intros Hf. apply keeps_update. intros w Hw.
  eapply drained_other_heaps; [apply Hf|exact Hw].
Qed.

Lemma drained_alloc {A} (m : M A) :
  (forall w, resources (m w).2 = resources w) -> keeps (drained this) m.
Proof. intros Hm w Hw. eapply drained_other_heaps; [apply Hm|exact Hw]. Qed.

Lemma drained_bind_alloc_resource {B} x (k : ref -> M B) :
  (forall a, a <> this -> keeps (drained this) (k a)) ->
  keeps (drained this) (bind (alloc_resource x) k).
Proof.
  intros Hk w Hw. unfold bind. cbn. apply Hk.
  - destruct Hw as (y & Hy & _). apply lookup_lt_Some in Hy. lia.
  - apply (drained_alloc_resource x w Hw).
Qed.

Create HintDb drained.

Ltac keeps_step :=
  first
    [ solve [eauto 2 with drained nocore]
    | apply keeps_ret | apply keeps_throw | apply keeps_deref
    | apply drained_alloc_resource
    | apply drained_modifyResource;
      first [left; assumption | right; intros ? ?; assumption | right; intros ? ?; reflexivity]
    | apply drained_bind_alloc_resource; intros ? ?
    | apply keeps_bind; [|intros ?]
    | apply keeps_catch; [|intros ?]
    | apply drained_update; reflexivity
    | apply drained_alloc; reflexivity
    | match goal with
      | |- keeps _ (match ?x with _ => _ end) => destruct x
      | |- keeps _ (if ?x then _ else _) => destruct x
      end ].

Ltac keeps_auto := repeat keeps_step.

Lemma drained_settle p s : keeps (drained this) (settle p s).
Proof. unfold settle. keeps_auto. Qed.
#[local] Hint Resolve drained_settle : drained.

Lemma drained_setBuffer r b : r <> this -> keeps (drained this) (setBuffer r b).
Proof. intros Hr. unfold setBuffer. keeps_auto. Qed.
#[local] Hint Resolve drained_setBuffer : drained.

Lemma drained_setStream r a : r <> this -> keeps (drained this) (setStream r a).
Proof. intros Hr. unfold setStream. keeps_auto. Qed.
#[local] Hint Resolve drained_setStream : drained.

Lemma drained_call f : keeps (drained this) (call f).
Proof. unfold call. keeps_auto. Qed.
#[local] Hint Resolve drained_call : drained.

Lemma drained_on s l : keeps (drained this) (on s l).
Proof. unfold on. keeps_auto. Qed.
#[local] Hint Resolve drained_on : drained.

Lemma drained__getStream r : keeps (drained this) (_getStream r).
Proof. unfold _getStream. keeps_auto. Qed.
#[local] Hint Resolve drained__getStream : drained.

Lemma drained__getBufferFromStream r : keeps (drained this) (_getBufferFromStream r).
Proof.
  unfold _getBufferFromStream, executor. keeps_auto.
Qed.
#[local] Hint Resolve drained__getBufferFromStream : drained.

Lemma drained_getBuffer r : keeps (drained this) (getBuffer r).
Proof. unfold getBuffer, async. keeps_auto. Qed.
#[local] Hint Resolve drained_getBuffer : drained.

Lemma drained_getString r : keeps (drained this) (getString r).
Proof. unfold getString. keeps_auto. Qed.

Lemma drained_getSize r : keeps (drained this) (getSize r).
Proof. unfold getSize, async. keeps_auto. Qed.

Lemma drained_getStream r : keeps (drained this) (getStream r).
Proof.
  unfold getStream, PassThrough_end. keeps_auto.
Qed.

Lemma drained_clone r : keeps (drained this) (clone r).
Proof.
  unfold clone, _getCloneOptions, async. keeps_auto.
Qed.

Lemma drained_constructor o : keeps (drained this) (constructor o).
Proof.
  unfold constructor, setString. keeps_auto.
Qed.
#[local] Hint Resolve drained_constructor : drained.

Lemma drained_clone_new q : keeps (drained this) (clone_new q).
Proof.
  intros w Hw. unfold clone_new. destruct (await w q) as [[e|o]|]; try exact Hw.
  revert w Hw. change (keeps (drained this) (let* c := constructor o in ret (Some c))).
  keeps_auto.
Qed.

Lemma drained_on_end l : l_this l <> this -> keeps (drained this) (on_end l).
Proof.
  intros Hl. unfold on_end. keeps_auto.
Qed.

Lemma drained_emit s w :
  sets_content this (Emit s) w = false -> drained this w -> drained this (emit s w).2.
Proof.
  unfold sets_content, emit, bind, deref. intros Hs Hw.
  destruct (streams w !! s) as [st|]; [|exact Hw].
  destruct (finished st); [exact Hw|]. simpl in Hs.
  destruct (listeners st) as [|l0 ls] eqn:El; [exact Hw|].
  destruct (chunks st) as [|c cs].
  - destruct (terminal st); [| |exact Hw].
    + cbn [fst snd update]. 
      match goal with |- drained _ (each on_end ?l ?w').2 => 
        assert (Hw' : drained this w') by (eapply drained_other_heaps; [|exact Hw]; reflexivity);
        revert Hw'; generalize w' end.
      change (keeps (drained this) (each on_end (l0 :: ls))). apply keeps_each.
      intros l Hl. apply drained_on_end. intros E.
      apply not_true_iff_false in Hs. apply Hs. apply existsb_exists.
      exists l. split; [apply list_elem_of_In, Hl|]. apply Nat.eqb_eq, E.
    + cbn [fst snd update].
      match goal with |- drained _ (each ?f ?l ?w').2 => 
        assert (Hw' : drained this w') by (eapply drained_other_heaps; [|exact Hw]; reflexivity);
        revert Hw'; generalize w' end.
      change (keeps (drained this) (each (on_error err) (l0 :: ls))). apply keeps_each.
      intros l _. apply drained_settle.
  - eapply drained_other_heaps; [|exact Hw]. reflexivity.
Qed.

Lemma drained_setPath r p : keeps (drained this) (setPath r p).
Proof. unfold setPath. keeps_auto. Qed.

Lemma drained_pushCollection r n : keeps (drained this) (pushCollection r n).
Proof. unfold pushCollection. keeps_auto. Qed.

Lemma drained_setProject r p : keeps (drained this) (setProject r p).
Proof. unfold setProject. keeps_auto. Qed.

Lemma drained_step op w :
  sets_content this op w = false -> drained this w -> drained this (step op w).
Proof.
  destruct op; simpl step; intros Hs Hw;
    try (apply drained_emit; assumption);
    try (apply Nat.eqb_neq in Hs).
  - apply drained_getBuffer, Hw.
  - apply drained_getString, Hw.
  - apply drained_getStream, Hw.
  - apply drained_getSize, Hw.
  - apply drained_setBuffer; assumption.
  - apply drained_setBuffer; assumption.
  - apply drained_setStream; assumption.
  - apply drained_setPath, Hw.
  - apply drained_pushCollection, Hw.
  - apply drained_setProject, Hw.
  - apply drained_clone, Hw.
  - apply drained_clone_new, Hw.
  - apply drained_constructor, Hw.
Qed.

Lemma drained_quiet w ops w' :
  quiet this w ops w' -> drained this w -> drained this w'.
Proof.
  induction 1 as [|w op ops w' Hs _ IH]; intros Hw; [exact Hw|].
  apply IH, drained_step; assumption.
Qed.

End Drained.

(** ** Running the methods on a store that is only partly known *)

Lemma deref_Some {A} (heap : World -> list A) r w x :
  heap w !! r = Some x -> deref heap r w = (inr x, w).
Proof. intros E. unfold deref. rewrite E. reflexivity. Qed.

Lemma modifyResource_Some r f w x :
  resources w !! r = Some x ->
  modifyResource r f w = (inr tt, with_resources (<[r := f x]>) w).
Proof. intros E. unfold modifyResource, bind. rewrite (deref_Some _ _ _ _ E). reflexivity. Qed.

Lemma lookup_modified r (y : Resource) w x :
  resources w !! r = Some x ->
  resources (with_resources (<[r := y]>) w) !! r = Some y.
Proof. intros E. cbn. apply list_lookup_insert_eq. eapply lookup_lt_Some, E. Qed.

Lemma with_sources_id w s src :
  sources w !! s = Some src -> with_sources (<[s := src]>) w = w.
Proof. intros E. destruct w. unfold with_sources. cbn in *. rewrite list_insert_id; done. Qed.

Section Setters.
Context `{Runtime} (this : ref).

Lemma setBuffer_eq w x b :
  resources w !! this = Some x -> source_ok w x ->
  setBuffer this b w =
    (inr tt, with_resources (<[this := set_content None None (Some b) x]>)
               (touch (_source x) w)).
Proof.
  intros Hx Hs. unfold setBuffer, bind. rewrite (deref_Some _ _ _ _ Hx).
  destruct (_source x) as [s|] eqn:Es; cbn [touch].
  - destruct (Hs s Es) as [[m] Hsrc]. rewrite (deref_Some _ _ _ _ Hsrc).
    destruct m; cbn [negb modified].
    + rewrite (with_sources_id _ _ _ Hsrc). apply modifyResource_Some, Hx.
    + apply modifyResource_Some, Hx.
  - cbn. apply modifyResource_Some, Hx.
Qed.

Lemma setStream_eq w x a :
  resources w !! this = Some x -> source_ok w x ->
  setStream this a w =
    (inr tt, with_resources
               (<[this := match a with
                          | ACallback f => set_content (Some f) None None x
                          | AStream s => set_content None (Some s) None x
                          end]>)
               (touch (_source x) w)).
Proof.
  intros Hx Hs. unfold setStream, bind. rewrite (deref_Some _ _ _ _ Hx).
  destruct (_source x) as [s|] eqn:Es; cbn [touch].
  - destruct (Hs s Es) as [[m] Hsrc]. rewrite (deref_Some _ _ _ _ Hsrc).
    destruct m; cbn.
    + rewrite (with_sources_id _ _ _ Hsrc). destruct a; apply modifyResource_Some, Hx.
    + destruct a; apply modifyResource_Some, Hx.
  - cbn. destruct a; apply modifyResource_Some, Hx.
Qed.

Lemma touch_resources o w : resources (touch o w) = resources w.
Proof. destruct o; reflexivity. Qed.

Lemma _getStream_drained w x :
  resources w !! this = Some x -> _streamDrained x = true ->
  _getStream this w = (inl (StreamDrained (_path x)), w).
Proof.
  intros Hx Hs. unfold _getStream, bind. rewrite (deref_Some _ _ _ _ Hx), Hs. reflexivity.
Qed.

Lemma _getStream_callback w x f :
  resources w !! this = Some x -> _streamDrained x = false ->
  _createStream x = Some f ->
  _getStream this w =
    (inr (Some (length (streams w))),
     with_streams (fun l => l ++ [untouched (factory_chunks f) (factory_terminal f)])
       (with_calls (cons (factory_id f)) w)).
Proof.
  intros Hx Hs Hf. unfold _getStream, bind.
  rewrite (deref_Some _ _ _ _ Hx), Hs, Hf. reflexivity.
Qed.

Lemma _getStream_stream w x :
  resources w !! this = Some x -> _streamDrained x = false ->
  _createStream x = None ->
  _getStream this w =
    (inr (_stream x), with_resources (<[this := set_streamDrained true x]>) w).
Proof.
  intros Hx Hs Hf. unfold _getStream, bind.
  rewrite (deref_Some _ _ _ _ Hx), Hs, Hf, (modifyResource_Some _ _ _ _ Hx). reflexivity.
Qed.

(** [getStream] on a resource whose flags are down and which has content. *)
Lemma getStream_fresh w x :
  resources w !! this = Some x ->
  _contentDrained x = false -> _streamDrained x = false ->
  truthy (_buffer x) || truthy (_createStream x) || truthy (_stream x) = true ->
  exists s w', getStream this w = (inr s, w') /\ drained this w'.
Proof.
  intros Hx Hc Hs Ht. unfold getStream, bind. rewrite (deref_Some _ _ _ _ Hx), Hc.
  destruct (_buffer x) as [b|] eqn:Eb.
  - cbn. eexists _, _. split.
    + erewrite modifyResource_Some; [reflexivity|exact Hx].
    + eexists. split; [eapply lookup_modified, Hx|reflexivity].
  - cbn [truthy orb] in Ht. rewrite Ht.
    destruct (_createStream x) as [f|] eqn:Ef.
    + rewrite (_getStream_callback _ _ f Hx Hs Ef).
      erewrite modifyResource_Some by exact Hx.
      eexists _, _. split; [reflexivity|].
      eexists. split; [eapply lookup_modified, Hx|reflexivity].
    + cbn in Ht. destruct (_stream x) as [s|] eqn:Est; [|done].
      rewrite (_getStream_stream _ _ Hx Hs Ef), Est.
      erewrite modifyResource_Some by (eapply lookup_modified, Hx).
      eexists _, _. split; [reflexivity|].
      eexists. split; [eapply lookup_modified, lookup_modified, Hx|reflexivity].
Qed.

End Setters.

Section ContentDrained.
Context `{Runtime} (this : ref).

Lemma drained_fails w : drained this w -> fails_ContentDrained this w.
Proof.
  intros (x & Hx & Hd). exists (_path x). repeat split.
  - unfold getBuffer, async, catch, bind. rewrite (deref_Some _ _ _ _ Hx), Hd. reflexivity.
  - unfold getString, bind. rewrite (deref_Some _ _ _ _ Hx), Hd. reflexivity.
  - unfold getStream, bind. rewrite (deref_Some _ _ _ _ Hx), Hd. reflexivity.
Qed.

Lemma getStream_returns_drained w s w1 :
  getStream this w = (inr s, w1) -> drained this w1.
Proof.
  unfold getStream, bind.
  destruct (deref resources this w) as [[e|x] w0]; [discriminate|].
  destruct (_contentDrained x); [discriminate|].
  match goal with |- context [match ?m w0 with _ => _ end] =>
    destruct (m w0) as [[e|[s'|]] w'] end; try discriminate.
  unfold modifyResource, bind, deref.
  destruct (resources w' !! this) as [x'|] eqn:Hx'; [|discriminate].
  cbn. intros [= <- <-]. eexists. split; [eapply lookup_modified, Hx'|reflexivity].
Qed.

Lemma setter_resets w x op :
  resources w !! this = Some x -> source_ok w x -> content_setter this op ->
  exists y, resources (step op w) !! this = Some y /\
            _contentDrained y = false /\ _streamDrained y = false /\
            truthy (_buffer y) || truthy (_createStream y) || truthy (_stream y) = true.
Proof.
  intros Hx Hs [b|str|a]; cbn [step]; unfold setString;
    rewrite ?(setBuffer_eq _ _ _ _ Hx Hs), ?(setStream_eq _ _ _ _ Hx Hs);
    (eexists; split; [eapply lookup_modified; rewrite touch_resources; exact Hx|]).
  - done.
  - done.
  - destruct a; done.
Qed.

(** Where the drained state lasts. Once [getStream] has returned a stream,
    [getBuffer], [getString] and [getStream] fail with the error for
    drained content over every run that is [quiet]: no call of
    [setBuffer], [setString] or [setStream] on the resource, and no [end]
    event of a stream that a buffering of the resource listens to. After
    such a run a call of one of the three setters puts both drained flags
    down, so that [getStream] returns a stream again. The [end] event of a
    buffering in flight is not covered: its listener calls [setBuffer]
    and so ends the drained state too, though no new content is set. *)
Theorem getStream_drains_until_content_is_set w s w1 :
  getStream this w = (inr s, w1) ->
  (forall ops w2, quiet this w1 ops w2 -> fails_ContentDrained this w2) /\
  (forall ops w2 op,
     quiet this w1 ops w2 ->
     (forall x, resources w2 !! this = Some x -> source_ok w2 x) ->
     content_setter this op ->
     (exists y, resources (step op w2) !! this = Some y /\
                _contentDrained y = false /\ _streamDrained y = false) /\
     (exists s' w3, getStream this (step op w2) = (inr s', w3))).
Proof.
  intros Hget. apply getStream_returns_drained in Hget. split.
  - intros ops w2 Hrun. apply drained_fails. eapply drained_quiet; eassumption.
  - intros ops w2 op Hrun Hsrc Hop.
    destruct (drained_quiet _ _ _ _ Hrun Hget) as (x & Hx & _).
    destruct (setter_resets _ _ _ Hx (Hsrc x Hx) Hop) as (y & Hy & Hc & Hs & Ht).
    split; [exists y; auto|].
    destruct (getStream_fresh _ _ _ Hy Hc Hs Ht) as (s' & w3 & E & _). eauto.
Qed.

End ContentDrained.

(** ** Buffering a stream *)

Lemma bind_inr {A B} (m : M A) (k : A -> M B) w a w' :
  m w = (inr a, w') -> bind m k w = k a w'.
Proof. intros E. unfold bind. rewrite E. reflexivity. Qed.

Lemma bind_inl {A B} (m : M A) (k : A -> M B) w e w' :
  m w = (inl e, w') -> bind m k w = (inl e, w').
Proof. intros E. unfold bind. rewrite E. reflexivity. Qed.

Section Buffering.
Context `{Runtime} (this s p : ref) (cs : list Buffer) (x : Resource).

(** What the [end] listener does: the buffer becomes the content, the
    source handle is as it was, the token is gone, the promise fulfilled. *)
Lemma on_end_eq got w :
  resources w !! this = Some x -> source_ok w x ->
  promises w !! p = Some Pending ->
  on_end (listener this p got) w =
    (inr tt,
     {| resources :=
          <[this := set_buffering None (set_content None None (Some (concat got)) x)]>
            (resources w);
        sources := sources w; stats := stats w; streams := streams w;
        promises := <[p := Fulfilled (concat got)]> (promises w);
        calls := calls w; now := now w |}).
Proof.
  intros Hx Hsrc Hp. unfold on_end. cbn [l_this l_promise buffers listener].
  rewrite (bind_inr _ _ _ _ _ (deref_Some _ _ _ _ Hx)).
  assert (Hlen : this < length (resources w)) by (eapply lookup_lt_Some, Hx).
  destruct (_source x) as [r|] eqn:Er.
  - destruct (Hsrc r Er) as [src Hr].
    erewrite (bind_inr (bind _ _)); [|rewrite (bind_inr _ _ _ _ _ (deref_Some _ _ _ _ Hr)); reflexivity].
    rewrite (bind_inr _ _ _ _ _ (setBuffer_eq _ _ _ _ Hx Hsrc)). rewrite Er. cbn [touch].
    erewrite bind_inr; [|apply deref_Some; eapply lookup_modified; exact Hx].
    cbn [_source set_content]. rewrite Er.
    unfold update at 1. unfold bind at 1.
    erewrite bind_inr; [|apply modifyResource_Some; eapply lookup_modified; exact Hx].
    unfold settle. erewrite bind_inr; [|apply deref_Some; exact Hp].
    destruct w as [rs ss sts sms ps cl nw]; destruct src as [m].
    unfold update, with_resources, with_sources, with_promises; cbn in *.
    do 2 f_equal. 
    + apply list_insert_insert_eq.
    + rewrite list_insert_insert_eq. apply list_insert_id, Hr.
  - erewrite (bind_inr (ret None)); [|reflexivity].
    rewrite (bind_inr _ _ _ _ _ (setBuffer_eq _ _ _ _ Hx Hsrc)). rewrite Er. cbn [touch].
    erewrite bind_inr; [|apply deref_Some; eapply lookup_modified; exact Hx].
    cbn [_source set_content]. rewrite Er.
    erewrite (bind_inr (ret tt)); [|reflexivity].
    erewrite bind_inr; [|apply modifyResource_Some; eapply lookup_modified; exact Hx].
    unfold settle. erewrite bind_inr; [|apply deref_Some; exact Hp].
    destruct w as [rs ss sts sms ps cl nw].
    unfold update, with_resources, with_sources, with_promises; cbn in *.
    do 2 f_equal. apply list_insert_insert_eq.
Qed.

Lemma flying_0 t w : buffering this s p cs t x w -> flying this s p cs t 0 w = w.
Proof.
  intros B. unfold flying. destruct w; unfold with_streams; cbn. f_equal.
  apply list_insert_id. exact (buffering_stream _ _ _ _ _ _ _ B).
Qed.

Lemma flying_stream t w k :
  buffering this s p cs t x w ->
  streams (flying this s p cs t k w) !! s = Some (flowing this p cs t k).
Proof.
  intros B. cbn. apply list_lookup_insert_eq.
  eapply lookup_lt_Some, (buffering_stream _ _ _ _ _ _ _ B).
Qed.

(** A [data] event. *)
Lemma emit_flying t w k :
  buffering this s p cs t x w -> k < length cs ->
  emit s (flying this s p cs t k w) = (inr tt, flying this s p cs t (S k) w).
Proof.
  intros B Hk. destruct (lookup_lt_is_Some_2 _ _ Hk) as [c Hc].
  unfold emit, bind. rewrite (deref_Some _ _ _ _ (flying_stream t w k B)).
  cbn [finished listeners chunks flowing]. rewrite (drop_S _ _ _ Hc).
  unfold update, flying, with_streams. cbn. do 2 f_equal.
  rewrite list_insert_insert_eq. unfold flowing, listener, on_data. cbn.
  rewrite (take_S_r _ _ _ Hc). reflexivity.
Qed.

Lemma flowing_last t :
  flowing this p cs t (length cs) =
  {| chunks := []; terminal := t; finished := false; listeners := [listener this p cs] |}.
Proof. unfold flowing. rewrite drop_all, firstn_all. reflexivity. Qed.

(** The [end] event. *)
Lemma emit_landing w :
  buffering this s p cs End x w ->
  emit s (flying this s p cs End (length cs) w) = (inr tt, landed this s p cs x w).
Proof.
  intros B. pose proof (flying_stream End w (length cs) B) as Hs.
  destruct B as [Hx Hp Hsrc Hst Hpr]. rewrite flowing_last in Hs.
  unfold emit. rewrite (bind_inr _ _ _ _ _ (deref_Some _ _ _ _ Hs)).
  cbn [finished listeners chunks terminal each].
  unfold update at 1. unfold bind at 1. unfold bind at 1.
  rewrite (on_end_eq cs); [|exact Hx|exact Hsrc|exact Hpr].
  unfold ret, landed, flying, with_streams, ended. cbn. do 2 f_equal.
  rewrite flowing_last. apply list_insert_insert_eq.
Qed.

(** The [error] event. *)
Lemma emit_crashing err w :
  buffering this s p cs (Failure err) x w ->
  emit s (flying this s p cs (Failure err) (length cs) w) =
    (inr tt, crashed this s p cs err w).
Proof.
  intros B. pose proof (flying_stream _ w (length cs) B) as Hs.
  destruct B as [Hx Hp Hsrc Hst Hpr]. rewrite flowing_last in Hs.
  unfold emit. rewrite (bind_inr _ _ _ _ _ (deref_Some _ _ _ _ Hs)).
  cbn [finished listeners chunks terminal each].
  unfold update at 1. unfold bind at 1. unfold bind at 1.
  unfold on_error, settle. cbn [l_promise listener].
  erewrite bind_inr; [|apply deref_Some; exact Hpr].
  unfold update, ret, crashed, flying, with_streams, with_promises, ended. cbn. do 2 f_equal.
  rewrite flowing_last. apply list_insert_insert_eq.
Qed.

(** A stream that has finished emits nothing. *)
Lemma emit_finished w st :
  streams w !! s = Some st -> finished st = true -> emit s w = (inr tt, w).
Proof.
  intros Hs Hf. unfold emit. rewrite (bind_inr _ _ _ _ _ (deref_Some _ _ _ _ Hs)), Hf.
  reflexivity.
Qed.

Lemma emit_landed w t :
  buffering this s p cs t x w ->
  emit s (landed this s p cs x w) = (inr tt, landed this s p cs x w).
Proof.
  intros B. eapply emit_finished with (st := ended this p cs _); [|reflexivity].
  cbn. apply list_lookup_insert_eq.
  eapply lookup_lt_Some, (buffering_stream _ _ _ _ _ _ _ B).
Qed.

Lemma emit_crashed w err :
  buffering this s p cs (Failure err) x w ->
  emit s (crashed this s p cs err w) = (inr tt, crashed this s p cs err w).
Proof.
  intros B. eapply emit_finished with (st := ended this p cs _); [|reflexivity].
  cbn. apply list_lookup_insert_eq.
  eapply lookup_lt_Some, (buffering_stream _ _ _ _ _ _ _ B).
Qed.

(** While a buffering is on, [_getBufferFromStream] hands out its promise
    and does nothing else. *)
Lemma _getBufferFromStream_token w y q :
  resources w !! this = Some y -> _buffering y = Some q ->
  _getBufferFromStream this w = (inr q, w).
Proof.
  intros Hy Hq. unfold _getBufferFromStream.
  rewrite (bind_inr _ _ _ _ _ (deref_Some _ _ _ _ Hy)), Hq. reflexivity.
Qed.

Lemma getBuffer_token w y q :
  resources w !! this = Some y -> _buffering y = Some q ->
  _contentDrained y = false -> _buffer y = None ->
  truthy (_createStream y) || truthy (_stream y) = true ->
  getBuffer this w = (inr (Then q id), w).
Proof.
  intros Hy Hq Hd Hb Ht. unfold getBuffer, async, catch.
  rewrite (bind_inr _ _ _ _ _ (deref_Some _ _ _ _ Hy)), Hd, Hb, Ht.
  rewrite (bind_inr _ _ _ _ _ (_getBufferFromStream_token _ _ _ Hy Hq)). reflexivity.
Qed.

Lemma getBuffer_buffer w y b :
  resources w !! this = Some y -> _contentDrained y = false -> _buffer y = Some b ->
  getBuffer this w = (inr (Resolve b), w).
Proof.
  intros Hy Hd Hb. unfold getBuffer, async, catch.
  rewrite (bind_inr _ _ _ _ _ (deref_Some _ _ _ _ Hy)), Hd, Hb. reflexivity.
Qed.

Lemma getBuffer_landed w t :
  buffering this s p cs t x w ->
  getBuffer this (landed this s p cs x w) =
    (inr (Resolve (concat cs)), landed this s p cs x w).
Proof.
  intros B.
  apply (getBuffer_buffer _
           (set_buffering None (set_content None None (Some (concat cs)) x)));
    [|reflexivity..].
  cbn. apply list_lookup_insert_eq.
  eapply lookup_lt_Some, (buffering_resource _ _ _ _ _ _ _ B).
Qed.

End Buffering.

Section Starting.
Context `{Runtime} (this : ref) (x : Resource).

Lemma _getBufferFromStream_stream w s cs t :
  resources w !! this = Some x -> _buffering x = None -> _streamDrained x = false ->
  _createStream x = None -> _stream x = Some s ->
  streams w !! s = Some (untouched cs t) ->
  _getBufferFromStream this w = (inr (length (promises w)), started_stream this s cs t x w).
Proof.
  intros Hx Hb Hd Hf Hs Hst. unfold _getBufferFromStream.
  rewrite (bind_inr _ _ _ _ _ (deref_Some _ _ _ _ Hx)), Hb.
  erewrite bind_inr; [|reflexivity].
  erewrite (bind_inr (catch _ _)).
  2:{ unfold catch, executor. erewrite bind_inr; [|exact (_getStream_stream _ (with_promises _ w) x Hx Hd Hf)].
      rewrite Hs. unfold on. erewrite bind_inr; [|apply deref_Some; exact Hst]. reflexivity. }
  erewrite bind_inr; [|apply modifyResource_Some; eapply lookup_modified; exact Hx].
  destruct w as [rs ss sts sms ps cl nw].
  unfold ret, update, started_stream, with_resources, with_streams, with_promises; cbn in *.
  do 2 f_equal. apply list_insert_insert_eq.
Qed.

Lemma _getBufferFromStream_callback w f :
  resources w !! this = Some x -> _buffering x = None -> _streamDrained x = false ->
  _createStream x = Some f ->
  _getBufferFromStream this w = (inr (length (promises w)), started_callback this f x w).
Proof.
  intros Hx Hb Hd Hf. unfold _getBufferFromStream.
  rewrite (bind_inr _ _ _ _ _ (deref_Some _ _ _ _ Hx)), Hb.
  erewrite bind_inr; [|reflexivity].
  erewrite (bind_inr (catch _ _)).
  2:{ unfold catch, executor. erewrite bind_inr; [|exact (_getStream_callback _ (with_promises _ w) x f Hx Hd Hf)].
      unfold on. erewrite bind_inr; [|eapply deref_Some; cbn; apply list_lookup_middle; reflexivity].
      reflexivity. }
  erewrite bind_inr; [|apply modifyResource_Some; exact Hx].
  destruct w as [rs ss sts sms ps cl nw].
  unfold ret, update, started_callback, with_resources, with_streams, with_promises, with_calls;
    cbn in *.
  do 2 f_equal. rewrite insert_app_r_alt by lia. rewrite Nat.sub_diag. reflexivity.
Qed.

Lemma started_stream_buffering w s cs t :
  resources w !! this = Some x -> source_ok w x ->
  streams w !! s = Some (untouched cs t) ->
  buffering this s (length (promises w)) cs t
    (set_buffering (Some (length (promises w))) (set_streamDrained true x))
    (started_stream this s cs t x w).
Proof.
  intros Hx Hsrc Hst. constructor; cbn.
  - apply list_lookup_insert_eq. eapply lookup_lt_Some, Hx.
  - reflexivity.
  - exact Hsrc.
  - apply list_lookup_insert_eq. eapply lookup_lt_Some, Hst.
  - apply list_lookup_middle. reflexivity.
Qed.

Lemma started_callback_buffering w f :
  resources w !! this = Some x -> source_ok w x ->
  buffering this (length (streams w)) (length (promises w))
    (factory_chunks f) (factory_terminal f)
    (set_buffering (Some (length (promises w))) x)
    (started_callback this f x w).
Proof.
  intros Hx Hsrc. constructor; cbn.
  - apply list_lookup_insert_eq. eapply lookup_lt_Some, Hx.
  - reflexivity.
  - exact Hsrc.
  - apply list_lookup_middle. reflexivity.
  - apply list_lookup_middle. reflexivity.
Qed.

End Starting.

Section Readers.
Context `{Runtime} (this s p : ref) (cs : list Buffer) (x : Resource).
Context (Hd : _contentDrained x = false) (Hb : _buffer x = None)
        (Ht : truthy (_createStream x) || truthy (_stream x) = true).

Lemma emits_landing w n k :
  buffering this s p cs End x w -> k <= length cs -> length cs - k < n ->
  emits n s (flying this s p cs End k w) = (inr tt, landed this s p cs x w).
Proof.
  intros B. revert k. induction n as [|n IH]; intros k Hk Hn; [lia|].
  cbn [emits]. destruct (decide (k = length cs)) as [->|Hne].
  - rewrite (bind_inr _ _ _ _ _ (emit_landing _ _ _ _ _ _ B)).
    clear IH Hn Hk. induction n as [|n IH]; [reflexivity|].
    cbn [emits]. rewrite (bind_inr _ _ _ _ _ (emit_landed _ _ _ _ _ _ _ B)). exact IH.
  - rewrite (bind_inr _ _ _ _ _ (emit_flying _ _ _ _ _ _ _ k B ltac:(lia))).
    apply IH; lia.
Qed.

Lemma emits_over w n :
  buffering this s p cs End x w ->
  emits n s (landed this s p cs x w) = (inr tt, landed this s p cs x w).
Proof.
  intros B. induction n as [|n IH]; [reflexivity|].
  cbn [emits]. rewrite (bind_inr _ _ _ _ _ (emit_landed _ _ _ _ _ _ _ B)). exact IH.
Qed.

Lemma progress_lands w w' :
  buffering this s p cs End x w -> progress this s p cs x w w' ->
  emits (S (length cs)) s w' = (inr tt, landed this s p cs x w).
Proof.
  intros B [k Hk|]; [apply emits_landing; [exact B|lia..]|apply emits_over, B].
Qed.

(** Reading while the buffering is on: the same promise, and the store
    is the one the events alone lead to. *)
Lemma readers_in_flight w turns k :
  buffering this s p cs End x w -> k + ticks turns <= length cs ->
  readers this s turns (flying this s p cs End k w) =
    (inr (replicate (reads turns) (Then p id)),
     flying this s p cs End (k + ticks turns) w).
Proof.
  intros B. revert k. induction turns as [|[|] turns IH]; intros k Hk; cbn [readers ticks reads].
  - rewrite Nat.add_0_r. reflexivity.
  - erewrite bind_inr; [|apply (getBuffer_token _ _ x p); [|exact (buffering_token _ _ _ _ _ _ _ B)|exact Hd|exact Hb|exact Ht]].
    2:{ exact (buffering_resource _ _ _ _ _ _ _ B). }
    rewrite (bind_inr _ _ _ _ _ (IH k Hk)). reflexivity.
  - cbn [ticks] in Hk.
    rewrite (bind_inr _ _ _ _ _ (emit_flying _ _ _ _ _ _ _ k B ltac:(lia))).
    rewrite (IH (S k)) by lia. rewrite Nat.add_succ_r. reflexivity.
Qed.

(** Reading at any time. *)
Lemma readers_progress w turns w1 :
  buffering this s p cs End x w -> progress this s p cs x w w1 ->
  exists qs w2, readers this s turns w1 = (inr qs, w2) /\
                length qs = reads turns /\
                Forall (shared p cs) qs /\ progress this s p cs x w w2.
Proof.
  intros B. revert w1. induction turns as [|[|] turns IH]; intros w1 Hw1; cbn [readers reads].
  - exists [], w1. repeat split; [constructor|exact Hw1].
  - destruct Hw1 as [k Hk|].
    + erewrite bind_inr; [|apply (getBuffer_token _ _ x p); [|exact (buffering_token _ _ _ _ _ _ _ B)|exact Hd|exact Hb|exact Ht]].
      2:{ exact (buffering_resource _ _ _ _ _ _ _ B). }
      destruct (IH _ (in_flight _ _ _ _ _ _ k Hk)) as (qs & w2 & E & Hl & Hqs & Hw2).
      rewrite (bind_inr _ _ _ _ _ E). exists (Then p id :: qs), w2.
      repeat split; [cbn; lia|constructor; [left; reflexivity|exact Hqs]|exact Hw2].
    + rewrite (bind_inr _ _ _ _ _ (getBuffer_landed _ _ _ _ _ _ _ B)).
      destruct (IH _ (over _ _ _ _ _ _)) as (qs & w2 & E & Hl & Hqs & Hw2).
      rewrite (bind_inr _ _ _ _ _ E). exists (Resolve (concat cs) :: qs), w2.
      repeat split; [cbn; lia|constructor; [right; reflexivity|exact Hqs]|exact Hw2].
  - destruct Hw1 as [k Hk|].
    + destruct (decide (k = length cs)) as [->|Hne].
      * rewrite (bind_inr _ _ _ _ _ (emit_landing _ _ _ _ _ _ B)). apply IH. constructor.
      * rewrite (bind_inr _ _ _ _ _ (emit_flying _ _ _ _ _ _ _ k B ltac:(lia))).
        apply IH. constructor. lia.
    + rewrite (bind_inr _ _ _ _ _ (emit_landed _ _ _ _ _ _ _ B)). apply IH. constructor.
Qed.

Lemma shared_await w q :
  buffering this s p cs End x w -> shared p cs q ->
  await (landed this s p cs x w) q = Some (inr (concat cs)).
Proof.
  intros B [->| ->]; [|reflexivity]. cbn.
  rewrite list_lookup_insert_eq; [reflexivity|].
  eapply lookup_lt_Some, (buffering_promise _ _ _ _ _ _ _ B).
Qed.

End Readers.

Section StreamError.
Context `{Runtime} (this s p : ref) (cs : list Buffer) (err : string) (x : Resource).

Lemma emits_crashing w n k :
  buffering this s p cs (Failure err) x w -> k <= length cs -> length cs - k < n ->
  emits n s (flying this s p cs (Failure err) k w) = (inr tt, crashed this s p cs err w).
Proof.
  intros B. revert k. induction n as [|n IH]; intros k Hk Hn; [lia|].
  cbn [emits]. destruct (decide (k = length cs)) as [->|Hne].
  - rewrite (bind_inr _ _ _ _ _ (emit_crashing _ _ _ _ _ _ _ B)).
    clear IH Hn Hk. induction n as [|n IH]; [reflexivity|].
    cbn [emits]. rewrite (bind_inr _ _ _ _ _ (emit_crashed _ _ _ _ _ _ _ B)). exact IH.
  - rewrite (bind_inr _ _ _ _ _ (emit_flying _ _ _ _ _ _ _ k B ltac:(lia))).
    apply IH; lia.
Qed.

(** A buffering whose stream emits [error]: the promise is rejected, the
    resource keeps it in [_buffering] and gets no buffer. With a new
    stream set, [getBuffer] hands out the rejected promise and leaves the
    new stream alone. *)
Lemma stale_promise_after_stream_error w s' :
  buffering this s p cs (Failure err) x w ->
  _buffer x = None ->
  exists w1 w2 y,
    emits (S (length cs)) s w = (inr tt, w1) /\
    resources w1 !! this = Some x /\
    promises w1 !! p = Some (Rejected (StreamError err)) /\
    setStream this (AStream s') w1 = (inr tt, w2) /\
    resources w2 !! this = Some y /\ _buffering y = Some p /\ _stream y = Some s' /\
    getBuffer this w2 = (inr (Then p id), w2) /\
    await w2 (Then p id) = Some (inl (StreamError err)).
Proof.
  intros B Hb. pose proof B as [Hx Hp Hsrc Hst Hpr].
  set (w1 := crashed this s p cs err w).
  assert (Hx1 : resources w1 !! this = Some x) by exact Hx.
  assert (Hp1 : promises w1 !! p = Some (Rejected (StreamError err))).
  { cbn. apply list_lookup_insert_eq. eapply lookup_lt_Some, Hpr. }
  pose proof (setStream_eq this w1 x (AStream s') Hx1 Hsrc) as Hset.
  set (y := set_content None (Some s') None x) in Hset.
  set (w2 := with_resources (<[this := y]>) (touch (_source x) w1)) in Hset.
  assert (Hy : resources w2 !! this = Some y).
  { eapply lookup_modified. rewrite touch_resources. exact Hx1. }
  assert (Hp2 : promises w2 !! p = Some (Rejected (StreamError err))).
  { subst w2. destruct (_source x); exact Hp1. }
  exists w1, w2, y. split.
  { rewrite <- (flying_0 _ _ _ _ _ _ _ B) at 1. apply emits_crashing; [exact B|lia..]. }
  split; [exact Hx1|]. split; [exact Hp1|]. split; [exact Hset|].
  split; [exact Hy|]. split; [exact Hp|]. split; [reflexivity|]. split.
  - apply (getBuffer_token _ _ y p Hy); [exact Hp|reflexivity|reflexivity|reflexivity].
  - cbn [await]. rewrite Hp2. reflexivity.
Qed.

End StreamError.

Section FirstRead.
Context `{Runtime} (this : ref) (x : Resource) (cs : list Buffer) (t : Terminal).

(** The first [getBuffer] of a resource that is backed by a stream. *)
Lemma getBuffer_starts w :
  resources w !! this = Some x -> source_ok w x ->
  _contentDrained x = false -> _streamDrained x = false ->
  _buffer x = None -> _buffering x = None ->
  stream_backed w x cs t ->
  exists s p x' w1,
    getBuffer this w = (inr (Then p id), w1) /\
    s = content_stream x w /\
    buffering this s p cs t x' w1 /\
    _contentDrained x' = false /\ _buffer x' = None /\
    truthy (_createStream x') || truthy (_stream x') = true /\
    _source x' = _source x /\ sources w1 = sources w /\
    calls w1 = called_once x w.
Proof.
  intros Hx Hsrc Hd Hsd Hb Hbf [s Hf Hs Hst|f Hf <- <-].
  - exists s, (length (promises w)), (set_buffering (Some (length (promises w)))
                                        (set_streamDrained true x)),
      (started_stream this s cs t x w).
    split; [|split; [unfold content_stream; rewrite Hf, Hs; reflexivity|];
             split; [apply started_stream_buffering; assumption|]].
    + unfold getBuffer, async, catch.
      rewrite (bind_inr _ _ _ _ _ (deref_Some _ _ _ _ Hx)), Hd, Hb, Hf, Hs. cbn [truthy orb].
      rewrite (bind_inr _ _ _ _ _ (_getBufferFromStream_stream _ _ _ _ _ _ Hx Hbf Hsd Hf Hs Hst)).
      reflexivity.
    + cbn. rewrite Hs. unfold called_once. rewrite Hf.
      repeat split; assumption.
  - exists (length (streams w)), (length (promises w)),
      (set_buffering (Some (length (promises w))) x), (started_callback this f x w).
    split; [|split; [unfold content_stream; rewrite Hf; reflexivity|];
             split; [apply started_callback_buffering; assumption|]].
    + unfold getBuffer, async, catch.
      rewrite (bind_inr _ _ _ _ _ (deref_Some _ _ _ _ Hx)), Hd, Hb, Hf. cbn [truthy orb].
      rewrite (bind_inr _ _ _ _ _ (_getBufferFromStream_callback _ _ _ _ Hx Hbf Hsd Hf)).
      reflexivity.
    + cbn. unfold called_once. rewrite Hf. repeat split; assumption.
Qed.

End FirstRead.

Section Dedup.
Context `{Runtime} (this : ref).

Lemma emits_flying s p cs t x w n k :
  buffering this s p cs t x w -> k + n <= length cs ->
  emits n s (flying this s p cs t k w) = (inr tt, flying this s p cs t (k + n) w).
Proof.
  intros B. revert k. induction n as [|n IH]; intros k Hk; cbn [emits].
  - rewrite Nat.add_0_r. reflexivity.
  - rewrite (bind_inr _ _ _ _ _ (emit_flying _ _ _ _ _ _ _ k B ltac:(lia))).
    rewrite IH by lia. rewrite Nat.add_succ_r. reflexivity.
Qed.

(** C2. A resource that is backed by a stream (or a callback) and has not
    been read: the first [getBuffer] starts one buffering and returns its
    pending promise. Every [getBuffer] that comes while the buffering is
    on, however the calls and the events of the stream interleave, returns
    that same promise and leaves the store as the events alone would. Once
    the stream has ended, the promises of all readers, early or late, hold
    the same bytes, the chunks of the stream in order; the stream has one
    set of listeners, and a callback has been called once. *)
Theorem concurrent_getBuffer_shares_one_buffering w x cs :
  resources w !! this = Some x -> source_ok w x ->
  _contentDrained x = false -> _streamDrained x = false ->
  _buffer x = None -> _buffering x = None ->
  stream_backed w x cs End ->
  exists s p w1,
    getBuffer this w = (inr (Then p id), w1) /\
    promises w1 !! p = Some Pending /\
    (forall turns, ticks turns <= length cs ->
       exists w2,
         readers this s turns w1 = (inr (replicate (reads turns) (Then p id)), w2) /\
         emits (ticks turns) s w1 = (inr tt, w2) /\
         promises w2 !! p = Some Pending) /\
    (forall turns,
       exists qs w2 w3,
         readers this s turns w1 = (inr qs, w2) /\
         length qs = reads turns /\
         emits (S (length cs)) s w2 = (inr tt, w3) /\
         Forall (fun q => await w3 q = Some (inr (concat cs))) (Then p id :: qs) /\
         streams w3 !! s = Some (ended this p cs End) /\
         calls w3 = called_once x w).
Proof.
  intros Hx Hsrc Hd Hsd Hb Hbf Hback.
  destruct (getBuffer_starts _ _ _ _ _ Hx Hsrc Hd Hsd Hb Hbf Hback)
    as (s & p & x' & w1 & Hget & _ & B & Hd' & Hb' & Ht' & _ & _ & Hcalls).
  exists s, p, w1. split; [exact Hget|]. split; [exact (buffering_promise _ _ _ _ _ _ _ B)|].
  pose proof (flying_0 _ _ _ _ _ _ _ B) as E0. split.
  - intros turns Hticks. exists (flying this s p cs End (ticks turns) w1).
    rewrite <- E0 at 1 3.
    rewrite (readers_in_flight _ _ _ _ _ Hd' Hb' Ht' _ _ 0 B) by (cbn; lia).
    rewrite (emits_flying _ _ _ _ _ _ _ 0 B) by (cbn; lia).
    repeat split. exact (buffering_promise _ _ _ _ _ _ _ B).
  - intros turns.
    destruct (readers_progress _ _ _ _ _ Hd' Hb' Ht' w1 turns w1 B) as (qs & w2 & E & Hl & Hqs & Hw2).
    { rewrite <- E0 at 2. constructor. lia. }
    exists qs, w2, (landed this s p cs x' w1).
    split; [exact E|]. split; [exact Hl|].
    split; [exact (progress_lands _ _ _ _ _ _ _ B Hw2)|].
    split; [|split].
    + apply Forall_forall. intros q Hq. apply (shared_await _ _ _ _ _ _ _ B).
      apply elem_of_cons in Hq as [->|Hq]; [left; reflexivity|].
      revert q Hq. apply Forall_forall, Hqs.
    + cbn. apply list_lookup_insert_eq.
      eapply lookup_lt_Some, (buffering_stream _ _ _ _ _ _ _ B).
    + exact Hcalls.
Qed.

End Dedup.

(** ** The constructor *)

Section Constructor.
Context `{Runtime}.

Lemma constructor_missing_path o w :
  nonempty (Parameters.path o) = false -> constructor o w = (inl MissingPath, w).
Proof. unfold constructor. destruct (Parameters.path o) as [[|c p]|]; done. Qed.

Lemma constructor_conflicting o w :
  nonempty (Parameters.path o) = true -> conflicting o = true ->
  constructor o w = (inl ConflictingContentParameters, w).
Proof.
  unfold constructor, conflicting. destruct (Parameters.path o) as [[|c p]|]; try done.
  intros _ ->. reflexivity.
Qed.

Lemma constructor_eq o w :
  nonempty (Parameters.path o) = true -> conflicting o = false ->
  (forall s, Parameters.source o = Some s -> is_Some (sources w !! s)) ->
  constructor o w = (inr (length (resources w)), constructed o w).
Proof.
  intros Hp Hc Hsrc. unfold constructor.
  destruct o as [path statInfo buffer createStream stream project source string].
  unfold conflicting in Hc. cbn [Parameters.path Parameters.statInfo Parameters.buffer
    Parameters.createStream Parameters.stream Parameters.project Parameters.source
    Parameters.string] in *.
  destruct path as [[|c path]|]; try done. rewrite Hc.
  destruct w as [rs ss sts sms ps cl nw]. cbn in Hsrc.
  assert (Hlast : forall (x : Resource), (rs ++ [x]) !! length rs = Some x)
    by (intros; apply list_lookup_middle; reflexivity).
  destruct source as [s|].
  - destruct (Hsrc s eq_refl) as [src Hs].
    assert (Hs' : s < length ss) by (eapply lookup_lt_Some, Hs).
    destruct statInfo as [st|], createStream as [f|], stream as [s'|], buffer as [b|],
      string as [[|c' str]|]; try discriminate Hc;
      unfold constructed, initial, initial_buffer;
      repeat (progress (unfold bind, deref, update, alloc_stat, alloc_resource,
                          modifyResource, setString, setBuffer, ret, with_resources, with_sources,
                          with_stats, set_createStream, set_stream, set_content;
                        cbn; rewrite ?Hlast, ?Hs, ?list_lookup_insert_eq by assumption));
      rewrite ?insert_app_r_alt by lia; rewrite ?Nat.sub_diag, ?list_insert_insert_eq;
      reflexivity.
  - destruct statInfo as [st|], createStream as [f|], stream as [s'|], buffer as [b|],
      string as [[|c' str]|]; try discriminate Hc;
      unfold constructed, initial, initial_buffer;
      repeat (progress (unfold bind, deref, update, alloc_stat, alloc_resource,
                          modifyResource, setString, setBuffer, ret, with_resources, with_sources,
                          with_stats, set_createStream, set_stream, set_content;
                        cbn; rewrite ?Hlast));
      rewrite ?insert_app_r_alt by lia; rewrite ?Nat.sub_diag;
      reflexivity.
Qed.

End Constructor.

Section ConstructorChecks.
Context `{Runtime}.

Lemma given_conflicting o : 2 <= given o -> conflicting o = true.
Proof.
  unfold given, conflicting.
  destruct (truthy (Parameters.buffer o)), (nonempty (Parameters.string o)),
    (truthy (Parameters.stream o)), (truthy (Parameters.createStream o)); cbn; lia || reflexivity.
Qed.

Lemma contentless_not_conflicting o : contentless o -> conflicting o = false.
Proof. intros (Hb & Hs & Hst & Hf). unfold conflicting. rewrite Hb, Hs, Hst, Hf. reflexivity. Qed.

(** C5, as the code has it. The constructor throws when [path] is missing
    or empty, and throws when two or more of buffer, non-empty string,
    stream and createStream are given; given a path and none of the four,
    it returns a resource, one without content. *)
Theorem constructor_checks o w :
  (nonempty (Parameters.path o) = false ->
   constructor o w = (inl MissingPath, w)) /\
  (nonempty (Parameters.path o) = true -> 2 <= given o ->
   constructor o w = (inl ConflictingContentParameters, w)) /\
  (nonempty (Parameters.path o) = true -> contentless o ->
   (forall s, Parameters.source o = Some s -> is_Some (sources w !! s)) ->
   exists this w' x,
     constructor o w = (inr this, w') /\ resources w' !! this = Some x /\
     _buffer x = None /\ _stream x = None /\ _createStream x = None).
Proof.
  split; [apply constructor_missing_path|]. split.
  - intros Hp Hg. apply constructor_conflicting; [exact Hp|apply given_conflicting, Hg].
  - intros Hp Hc Hsrc.
    exists (length (resources w)), (constructed o w), (initial o w).
    split; [apply constructor_eq; [exact Hp|apply contentless_not_conflicting, Hc|exact Hsrc]|].
    split; [cbn; apply list_lookup_middle; reflexivity|].
    destruct Hc as (Hb & Hs & Hst & Hf). unfold initial, initial_buffer. cbn.
    rewrite Hb, Hs, Hst, Hf. auto.
Qed.

End ConstructorChecks.

(** C5 as the spec has it fails: with a path and no content parameter the
    constructor does not throw. *)
Lemma constructor_without_content_returns :
  (constructor (only_path "/a.js") (empty_world 0)).1 = inr 0.
Proof. reflexivity. Qed.

(** The witness of C5: the three cases at concrete parameters. *)
Lemma constructor_checks_witness :
  constructor {| Parameters.path := None; Parameters.statInfo := None;
                 Parameters.buffer := None; Parameters.createStream := None;
                 Parameters.stream := None; Parameters.project := None;
                 Parameters.source := None; Parameters.string := Some "x" |}
    (empty_world 0) = (inl MissingPath, empty_world 0) /\
  constructor {| Parameters.path := Some "/a.js"; Parameters.statInfo := None;
                 Parameters.buffer := Some [x01]; Parameters.createStream := None;
                 Parameters.stream := None; Parameters.project := None;
                 Parameters.source := None; Parameters.string := Some "x" |}
    (empty_world 0) = (inl ConflictingContentParameters, empty_world 0) /\
  exists this w' x,
    constructor (only_path "/a.js") (empty_world 0) = (inr this, w') /\
    resources w' !! this = Some x /\
    _buffer x = None /\ _stream x = None /\ _createStream x = None.
Proof.
  split; [|split].
  - apply (proj1 (constructor_checks _ _)). reflexivity.
  - apply (proj1 (proj2 (constructor_checks _ _))); [reflexivity|cbn; lia].
  - apply (proj2 (proj2 (constructor_checks _ _))); [reflexivity|repeat split|discriminate].
Defined.

Section FirstGetBuffer.
Context `{Runtime}.

Lemma constructed_last o w :
  resources (constructed o w) !! length (resources w) = Some (initial o w).
Proof. cbn. apply list_lookup_middle. reflexivity. Qed.

Lemma constructed_source_ok o w :
  (forall s, Parameters.source o = Some s -> is_Some (sources w !! s)) ->
  source_ok (constructed o w) (initial o w).
Proof.
  intros Hsrc s Hs. cbn in Hs. cbn. rewrite Hs.
  apply list_lookup_insert_is_Some, Hsrc, Hs.
Qed.

(** The first [getBuffer] of a new resource that is backed by a stream. *)
Lemma first_getBuffer_buffers o w cs :
  well_formed w o -> conflicting o = false ->
  Parameters.buffer o = None -> Parameters.string o = None ->
  stream_backed (constructed o w) (initial o w) cs End ->
  exists p w2 w3,
    let this := length (resources w) in
    let s := content_stream (initial o w) w in
    getBuffer this (constructed o w) = (inr (Then p id), w2) /\
    streams w2 !! s = Some (flowing this p cs End 0) /\
    calls w2 = called_once (initial o w) w /\
    emits (S (length cs)) s w2 = (inr tt, w3) /\
    await w3 (Then p id) = Some (inr (concat cs)).
Proof.
  intros [Hp Hsrc] Hc Hb Hs Hback.
  destruct (getBuffer_starts (length (resources w)) (initial o w) cs End (constructed o w)) as
    (s & p & x' & w2 & Hget & -> & B & _ & _ & _ & _ & _ & Hcalls);
    [apply constructed_last|apply constructed_source_ok, Hsrc|reflexivity..| | |exact Hback|].
  - unfold initial, initial_buffer. cbn. rewrite Hb, Hs.
    destruct (Parameters.createStream o), (Parameters.stream o); reflexivity.
  - reflexivity.
  - exists p, w2, (landed (length (resources w)) (content_stream (initial o w) w) p cs x' w2).
    cbv zeta. split; [exact Hget|]. split; [exact (buffering_stream _ _ _ _ _ _ _ B)|].
    split; [exact Hcalls|]. split.
    + rewrite <- (flying_0 _ _ _ _ _ _ _ B) at 1. apply emits_landing; [exact B|lia..].
    + apply (shared_await _ _ _ _ _ _ _ B). left. reflexivity.
Qed.

(** C3. With exactly one content parameter, the constructor returns a
    resource whose first [getBuffer] gives the content that was supplied:
    the buffer; the UTF-8 bytes of the string; the chunks of the stream, in
    order, once the stream has ended; and the same for the stream of one
    call of the callback. *)
Theorem first_getBuffer_returns_supplied_content o w :
  well_formed w o ->
  let this := length (resources w) in
  let w1 := constructed o w in
  (forall b,
     Parameters.buffer o = Some b -> Parameters.string o = None ->
     Parameters.stream o = None -> Parameters.createStream o = None ->
     constructor o w = (inr this, w1) /\
     getBuffer this w1 = (inr (Resolve b), w1)) /\
  (forall str,
     Parameters.string o = Some str -> Parameters.buffer o = None ->
     Parameters.stream o = None -> Parameters.createStream o = None ->
     constructor o w = (inr this, w1) /\
     getBuffer this w1 = (inr (Resolve (Buffer_from str)), w1)) /\
  (forall s cs,
     Parameters.stream o = Some s -> Parameters.buffer o = None ->
     Parameters.string o = None -> Parameters.createStream o = None ->
     streams w !! s = Some (untouched cs End) ->
     exists p w2 w3,
       constructor o w = (inr this, w1) /\
       getBuffer this w1 = (inr (Then p id), w2) /\
       streams w2 !! s = Some (flowing this p cs End 0) /\
       emits (S (length cs)) s w2 = (inr tt, w3) /\
       await w3 (Then p id) = Some (inr (concat cs))) /\
  (forall f,
     Parameters.createStream o = Some f -> Parameters.buffer o = None ->
     Parameters.string o = None -> Parameters.stream o = None ->
     factory_terminal f = End ->
     exists p w2 w3,
       let s := length (streams w) in
       constructor o w = (inr this, w1) /\
       getBuffer this w1 = (inr (Then p id), w2) /\
       calls w2 = factory_id f :: calls w /\
       streams w2 !! s = Some (flowing this p (factory_chunks f) End 0) /\
       emits (S (length (factory_chunks f))) s w2 = (inr tt, w3) /\
       await w3 (Then p id) = Some (inr (concat (factory_chunks f)))).
Proof.
  intros Hwf this w1. pose proof Hwf as [Hp Hsrc].
  assert (Hnew : conflicting o = false -> constructor o w = (inr this, w1))
    by (intros Hc; apply constructor_eq; assumption).
  split; [|split; [|split]].
  - intros b Hb Hs Hst Hf.
    split; [apply Hnew; unfold conflicting; rewrite Hb, Hs, Hst, Hf; reflexivity|].
    apply (getBuffer_buffer _ _ (initial o w)); [apply constructed_last|reflexivity|].
    unfold initial, initial_buffer. cbn. rewrite Hb, Hst, Hf. reflexivity.
  - intros str Hs Hb Hst Hf.
    split; [apply Hnew; unfold conflicting; rewrite Hb, Hs, Hst, Hf; destruct str; reflexivity|].
    apply (getBuffer_buffer _ _ (initial o w)); [apply constructed_last|reflexivity|].
    unfold initial, initial_buffer. cbn. rewrite Hb, Hs, Hst, Hf. reflexivity.
  - intros s cs Hst Hb Hs Hf Hstream.
    assert (Hc : conflicting o = false)
      by (unfold conflicting; rewrite Hb, Hs, Hst, Hf; reflexivity).
    destruct (first_getBuffer_buffers o w cs Hwf Hc Hb Hs) as
      (p & w2 & w3 & Hget & Hfl & _ & Hem & Haw).
    { apply (backed_by_stream _ _ _ _ s); cbn; rewrite ?Hf; auto. }
    unfold content_stream in *. cbn in Hfl, Hem. rewrite Hf, Hst in Hfl, Hem.
    exists p, w2, w3. auto.
  - intros f Hf Hb Hs Hst Hend.
    assert (Hc : conflicting o = false)
      by (unfold conflicting; rewrite Hb, Hs, Hst, Hf; reflexivity).
    destruct (first_getBuffer_buffers o w (factory_chunks f) Hwf Hc Hb Hs) as
      (p & w2 & w3 & Hget & Hfl & Hcalls & Hem & Haw).
    { apply (backed_by_callback _ _ _ _ f); cbn; auto. }
    unfold content_stream, called_once in *. cbn in Hfl, Hem, Hcalls.
    rewrite Hf in Hfl, Hem, Hcalls.
    exists p, w2, w3. cbv zeta. auto 10.
Qed.

End FirstGetBuffer.

(** ** Cloning *)

Section Clone.
Context `{Runtime}.

(** A content setter on [r] leaves the fields of every other resource. *)
Lemma setter_frame r r' op w :
  content_setter r op -> r' <> r -> resources (step op w) !! r' = resources w !! r'.
Proof.
  intros Hop Hne.
  assert (Hmod : forall f w0, resources (modifyResource r f w0).2 !! r' = resources w0 !! r').
  { intros f w0. unfold modifyResource, bind, deref.
    destruct (resources w0 !! r); cbn; [|reflexivity].
    apply list_lookup_insert_ne. auto. }
  assert (Hb : forall b, resources (setBuffer r b w).2 !! r' = resources w !! r').
  { intros b. unfold setBuffer, bind, deref.
    destruct (resources w !! r) as [x|]; [|reflexivity].
    destruct (_source x) as [s|]; cbn.
    - destruct (sources w !! s) as [src|]; [|reflexivity].
      destruct (negb (modified src)); cbn; rewrite Hmod; reflexivity.
    - apply Hmod. }
  destruct Hop as [b|str|a]; cbn [step]; [apply Hb|apply Hb|].
  unfold setStream, bind, deref.
  destruct (resources w !! r) as [x|]; [|reflexivity].
  destruct (_source x) as [s|]; cbn.
  - destruct (sources w !! s) as [src|]; [|reflexivity].
    destruct (negb (modified src)), a; cbn; rewrite Hmod; reflexivity.
  - destruct a; apply Hmod.
Qed.

(** [clone] of a resource that has no stream: the options are there at
    once. *)
Lemma clone_no_stream this w x st :
  resources w !! this = Some x -> stats w !! _statInfo x = Some st ->
  _stream x = None ->
  clone this w =
    (inr (Resolve (clone_options x (length (stats w))
                     (match _createStream x with Some _ => None | None => _buffer x end)
                     (_createStream x))),
     with_stats (fun l => l ++ [st]) w).
Proof.
  intros Hx Hst Hs. unfold clone, _getCloneOptions, async, catch.
  rewrite (bind_inr _ _ _ _ _ (deref_Some _ _ _ _ Hx)).
  rewrite (bind_inr _ _ _ _ _ (deref_Some _ _ _ _ Hst)).
  erewrite bind_inr; [|reflexivity]. rewrite Hs.
  destruct (_createStream x), (_buffer x); reflexivity.
Qed.

(** [clone] of a resource with a stream nobody has touched: the options
    wait for the buffer. *)
Lemma clone_stream this w x st s cs t :
  resources w !! this = Some x -> stats w !! _statInfo x = Some st ->
  _stream x = Some s -> _createStream x = None ->
  _buffering x = None -> _streamDrained x = false ->
  streams w !! s = Some (untouched cs t) ->
  clone this w =
    (inr (Then (length (promises w))
            (fun b => clone_options x (length (stats w)) (Some b) None)),
     started_stream this s cs t x (with_stats (fun l => l ++ [st]) w)).
Proof.
  intros Hx Hst Hs Hf Hb Hd Hstream. unfold clone, _getCloneOptions, async, catch.
  rewrite (bind_inr _ _ _ _ _ (deref_Some _ _ _ _ Hx)).
  rewrite (bind_inr _ _ _ _ _ (deref_Some _ _ _ _ Hst)).
  erewrite bind_inr; [|reflexivity]. rewrite Hs.
  erewrite bind_inr;
    [|exact (_getBufferFromStream_stream this x (with_stats _ w) s cs t Hx Hb Hd Hf Hs Hstream)].
  reflexivity.
Qed.

(** The constructor on the options of a clone. *)
Lemma constructor_clone_options this w0 w x st b f :
  resources w0 !! this = Some x -> length (resources w) = length (resources w0) ->
  nonempty (Some (_path x)) = true ->
  (forall s, _source x = Some s -> is_Some (sources w !! s)) ->
  stats w0 !! _statInfo x = Some st ->
  stats w = stats w0 ++ [st] ->
  truthy b && truthy f = false ->
  exists w',
    constructor (clone_options x (length (stats w0)) b f) w =
      (inr (length (resources w0)), w') /\
    resources w' = resources w ++
                   [initial (clone_options x (length (stats w0)) b f) w] /\
    sources w' = match _source x with
                 | Some s => <[s := {| modified := truthy b |}]> (sources w)
                 | None => sources w
                 end /\
    stats w' = stats w /\
    cloned w0 this x st (length (resources w0)) w'.
Proof.
  intros Hx Hlen Hp Hsrc Hst Hstats Hbf.
  exists (constructed (clone_options x (length (stats w0)) b f) w).
  assert (Hib : initial_buffer (clone_options x (length (stats w0)) b f) =
                match f with Some _ => None | None => b end)
    by (unfold initial_buffer; cbn; destruct f, b; reflexivity).
  split; [|split; [reflexivity|split; [|split; [reflexivity|]]]].
  - rewrite <- Hlen. apply constructor_eq; [exact Hp| |exact Hsrc].
    unfold conflicting. cbn. destruct b, f; done.
  - cbn. rewrite Hib. destruct f, b; try done.
  - constructor.
    + apply lookup_ge_None. lia.
    + exists (initial (clone_options x (length (stats w0)) b f) w). cbn.
      rewrite <- Hlen. split; [apply list_lookup_middle; reflexivity|].
      apply lookup_lt_Some in Hst as Hlt.
      repeat split; try reflexivity.
      * lia.
      * apply lookup_ge_None. lia.
      * rewrite Hstats. apply list_lookup_middle. reflexivity.
      * rewrite Hstats. apply lookup_app_l_Some, Hst.
    + intros op. apply lookup_lt_Some in Hx as Hlt.
      split; intros Hop; apply (setter_frame _ _ _ _ Hop); lia.
Qed.

End Clone.

Section CloneTheorem.
Context `{Runtime}.

Lemma clone_new_Resolve o w :
  clone_new (Resolve o) w = (let* c := constructor o in ret (Some c)) w.
Proof. reflexivity. Qed.

Lemma clone_new_pending p f w :
  promises w !! p = Some Pending -> clone_new (Then p f) w = (inr None, w).
Proof. intros Hp. unfold clone_new. cbn. rewrite Hp. reflexivity. Qed.

Lemma clone_new_fulfilled p f b w :
  promises w !! p = Some (Fulfilled b) ->
  clone_new (Then p f) w = (let* c := constructor (f b) in ret (Some c)) w.
Proof. intros Hp. unfold clone_new. cbn. rewrite Hp. reflexivity. Qed.

(** C6. [clone] gives a new resource with the path of the original, a
    stat object of its own with the same fields, the same source handle,
    no project and no collections, and content of its own. The clone of a
    resource with a buffer has that buffer, also when the content of the
    original is flagged as drained; the clone of a resource with a
    callback has the callback; the clone of a resource with a stream waits
    for the stream to end, which drains it, and then has all its chunks as
    a buffer, which [getBuffer] returns. *)
Theorem clone_is_independent w this x st :
  resources w !! this = Some x ->
  nonempty (Some (_path x)) = true ->
  source_ok w x ->
  stats w !! _statInfo x = Some st ->
  let c := length (resources w) in
  (forall b,
     _stream x = None -> _createStream x = None -> _buffer x = Some b ->
     exists q w1 w2,
       clone this w = (inr q, w1) /\
       clone_new q w1 = (inr (Some c), w2) /\
       cloned w this x st c w2 /\
       getBuffer c w2 = (inr (Resolve b), w2)) /\
  (forall f,
     _stream x = None -> _createStream x = Some f ->
     exists q w1 w2 y,
       clone this w = (inr q, w1) /\
       clone_new q w1 = (inr (Some c), w2) /\
       cloned w this x st c w2 /\
       resources w2 !! c = Some y /\ _createStream y = Some f /\ _buffer y = None) /\
  (forall s cs,
     _stream x = Some s -> _createStream x = None ->
     _buffering x = None -> _streamDrained x = false ->
     streams w !! s = Some (untouched cs End) ->
     exists q w1 w2 w3 p,
       clone this w = (inr q, w1) /\
       clone_new q w1 = (inr None, w1) /\
       emits (S (length cs)) s w1 = (inr tt, w2) /\
       streams w2 !! s = Some (ended this p cs End) /\
       clone_new q w2 = (inr (Some c), w3) /\
       cloned w this x st c w3 /\
       getBuffer c w3 = (inr (Resolve (concat cs)), w3)).
Proof.
  intros Hx Hp Hsrc Hst c. split; [|split].
  - intros b Hs Hf Hb.
    destruct (constructor_clone_options this w (with_stats (fun l => l ++ [st]) w)
                x st (Some b) None Hx eq_refl Hp Hsrc Hst eq_refl eq_refl)
      as (w2 & Hnew & Hres & _ & _ & Hcl).
    eexists _, _, w2. split; [|split; [|split; [exact Hcl|]]].
    + rewrite (clone_no_stream _ _ _ _ Hx Hst Hs), Hf, Hb. reflexivity.
    + rewrite clone_new_Resolve, (bind_inr _ _ _ _ _ Hnew). reflexivity.
    + eapply getBuffer_buffer; [rewrite Hres; apply list_lookup_middle; reflexivity|..];
        reflexivity.
  - intros f Hs Hf.
    destruct (constructor_clone_options this w (with_stats (fun l => l ++ [st]) w)
                x st None (Some f) Hx eq_refl Hp Hsrc Hst eq_refl eq_refl)
      as (w2 & Hnew & Hres & _ & _ & Hcl).
    eexists _, _, w2, _. split; [|split; [|split; [exact Hcl|split]]].
    + rewrite (clone_no_stream _ _ _ _ Hx Hst Hs), Hf. reflexivity.
    + rewrite clone_new_Resolve, (bind_inr _ _ _ _ _ Hnew). reflexivity.
    + rewrite Hres. apply list_lookup_middle. reflexivity.
    + split; reflexivity.
  - intros s cs Hs Hf Hb Hd Hstream.
    set (w0 := with_stats (fun l => l ++ [st]) w).
    set (p := length (promises w)).
    set (x' := set_buffering (Some p) (set_streamDrained true x)).
    set (w1 := started_stream this s cs End x w0).
    assert (B : buffering this s p cs End x' w1)
      by (apply (started_stream_buffering this x w0 s cs End); assumption).
    set (w2 := landed this s p cs x' w1).
    destruct (constructor_clone_options this w w2 x st (Some (concat cs)) None)
      as (w3 & Hnew & Hres & _ & _ & Hcl); try assumption; try reflexivity.
    { cbn. rewrite !length_insert. reflexivity. }
    exists (Then p (fun b => clone_options x (length (stats w)) (Some b) None)), w1, w2, w3, p.
    split; [exact (clone_stream _ _ _ _ _ _ _ Hx Hst Hs Hf Hb Hd Hstream)|].
    split; [apply clone_new_pending, (buffering_promise _ _ _ _ _ _ _ B)|].
    split; [rewrite <- (flying_0 _ _ _ _ _ _ _ B) at 1; apply emits_landing; [exact B|lia..]|].
    split; [cbn; apply list_lookup_insert_eq; eapply lookup_lt_Some, (buffering_stream _ _ _ _ _ _ _ B)|].
    split; [|split; [exact Hcl|]].
    + erewrite clone_new_fulfilled.
      * rewrite (bind_inr _ _ _ _ _ Hnew). reflexivity.
      * cbn. apply list_lookup_insert_eq. rewrite length_app. cbn. lia.
    + eapply getBuffer_buffer;
        [rewrite Hres; apply list_lookup_middle; cbn; rewrite !length_insert; reflexivity|..];
        reflexivity.
Qed.

End CloneTheorem.

(** ** The modified flag of the source handle *)

Section Modified.
Context `{Runtime}.

Lemma emits_progress this s p cs x w n :
  buffering this s p cs End x w ->
  exists w', emits n s w = (inr tt, w') /\ progress this s p cs x w w'.
Proof.
  intros B. pose proof (flying_0 _ _ _ _ _ _ _ B) as E0.
  destruct (decide (n <= length cs)) as [Hn|Hn].
  - exists (flying this s p cs End n w). split; [|constructor; exact Hn].
    rewrite <- E0 at 1. apply (emits_flying _ _ _ _ _ _ _ _ 0 B). exact Hn.
  - exists (landed this s p cs x w). split; [|constructor].
    rewrite <- E0 at 1. apply emits_landing; [exact B|lia..].
Qed.

Lemma progress_sources this s p cs x w w' :
  progress this s p cs x w w' -> sources w' = sources w.
Proof. intros [k _|]; reflexivity. Qed.

(** C7. A resource with a source handle whose flag is down, backed by a
    stream: reading it buffers the stream, the buffer becomes the content
    through [setBuffer], and the flag is down after the call, after every
    event of the stream and when the buffer is there. A call of
    [setBuffer] from outside raises the flag. *)
Theorem reading_keeps_modified_and_setBuffer_raises_it this w x src :
  resources w !! this = Some x ->
  _source x = Some src ->
  sources w !! src = Some {| modified := false |} ->
  (forall cs,
     _contentDrained x = false -> _streamDrained x = false ->
     _buffer x = None -> _buffering x = None ->
     stream_backed w x cs End ->
     exists p w1 w2 y,
       getBuffer this w = (inr (Then p id), w1) /\
       sources w1 !! src = Some {| modified := false |} /\
       (forall n, sources (emits n (content_stream x w) w1).2 !! src =
                  Some {| modified := false |}) /\
       emits (S (length cs)) (content_stream x w) w1 = (inr tt, w2) /\
       await w2 (Then p id) = Some (inr (concat cs)) /\
       resources w2 !! this = Some y /\ _buffer y = Some (concat cs) /\
       sources w2 !! src = Some {| modified := false |}) /\
  (forall b,
     exists w', setBuffer this b w = (inr tt, w') /\
                sources w' !! src = Some {| modified := true |}).
Proof.
  intros Hx Hs Hsrc.
  assert (Hok : source_ok w x).
  { intros s' Hs'. rewrite Hs in Hs'. injection Hs' as <-. eauto. }
  split.
  - intros cs Hd Hsd Hb Hbf Hback.
    destruct (getBuffer_starts _ _ _ _ _ Hx Hok Hd Hsd Hb Hbf Hback)
      as (s & p & x' & w1 & Hget & -> & B & _ & _ & _ & _ & Hsources & _).
    exists p, w1, (landed this (content_stream x w) p cs x' w1),
      (set_buffering None (set_content None None (Some (concat cs)) x')).
    split; [exact Hget|]. split; [rewrite Hsources; exact Hsrc|]. split.
    { intros n. destruct (emits_progress _ _ _ _ _ _ n B) as (w' & -> & Hw').
      cbn [snd]. rewrite (progress_sources _ _ _ _ _ _ _ Hw'), Hsources. exact Hsrc. }
    split; [rewrite <- (flying_0 _ _ _ _ _ _ _ B) at 1; apply emits_landing; [exact B|lia..]|].
    split; [apply (shared_await _ _ _ _ _ _ _ B); left; reflexivity|].
    split; [cbn; apply list_lookup_insert_eq;
            eapply lookup_lt_Some, (buffering_resource _ _ _ _ _ _ _ B)|].
    split; [reflexivity|]. cbn. rewrite Hsources. exact Hsrc.
  - intros b. eexists. split; [apply (setBuffer_eq _ _ _ _ Hx Hok)|].
    rewrite Hs. cbn. apply list_lookup_insert_eq. eapply lookup_lt_Some, Hsrc.
Qed.

End Modified.

(** ** The size *)

Section Size.
Context `{Runtime}.

Lemma getBuffer_never_throws this w : exists q w', getBuffer this w = (inr q, w').
Proof.
  unfold getBuffer, async, catch.
  match goal with |- context [match ?m w with _ => _ end] => destruct (m w) as [[e|q] w'] end;
    eauto.
Qed.

(** With content, [getSize] is [getBuffer] followed by [byteLength]. *)
Lemma getSize_follows_getBuffer this w x q w' :
  resources w !! this = Some x ->
  truthy (_buffer x) || truthy (_createStream x) || truthy (_stream x) = true ->
  getBuffer this w = (inr q, w') ->
  getSize this w = (inr (then_ (@length byte) q), w').
Proof.
  intros Hx Ht Hq. unfold getSize, async, catch.
  rewrite (bind_inr _ _ _ _ _ (deref_Some _ _ _ _ Hx)).
  destruct (_buffer x), (_createStream x), (_stream x); try discriminate Ht;
    cbn [truthy negb andb]; rewrite (bind_inr _ _ _ _ _ Hq); reflexivity.
Qed.

(** C9, as the code has it. Without a buffer, a stream and a callback
    [getSize] returns 0 and touches nothing. Otherwise it returns what
    [getBuffer] gives, as a length: the length of the buffer the resource
    holds; the length of the buffer the stream is turned into, which is
    the content from then on; and the error of [getBuffer] when the
    content is flagged as drained. *)
Theorem getSize_is_zero_or_the_length_of_getBuffer this w x :
  resources w !! this = Some x ->
  (_buffer x = None -> _createStream x = None -> _stream x = None ->
   getSize this w = (inr (Resolve 0), w)) /\
  (forall b,
     _buffer x = Some b -> _contentDrained x = false ->
     getSize this w = (inr (Resolve (length b)), w)) /\
  (forall cs,
     source_ok w x ->
     _contentDrained x = false -> _streamDrained x = false ->
     _buffer x = None -> _buffering x = None ->
     stream_backed w x cs End ->
     exists p w1 w2 y,
       getSize this w = (inr (Then p (fun b => length (id b))), w1) /\
       emits (S (length cs)) (content_stream x w) w1 = (inr tt, w2) /\
       await w2 (Then p (fun b => length (id b))) = Some (inr (length (concat cs))) /\
       resources w2 !! this = Some y /\ _buffer y = Some (concat cs)) /\
  (truthy (_buffer x) || truthy (_createStream x) || truthy (_stream x) = true ->
   _contentDrained x = true ->
   getSize this w = (inr (Reject (ContentDrained (_path x))), w)).
Proof.
  intros Hx. split; [|split; [|split]].
  - intros Hb Hf Hs. unfold getSize, async, catch.
    rewrite (bind_inr _ _ _ _ _ (deref_Some _ _ _ _ Hx)), Hb, Hf, Hs. reflexivity.
  - intros b Hb Hd.
    apply (getSize_follows_getBuffer _ _ x (Resolve b)); [exact Hx|rewrite Hb; reflexivity|].
    apply (getBuffer_buffer _ _ x); assumption.
  - intros cs Hok Hd Hsd Hb Hbf Hback.
    destruct (getBuffer_starts _ _ _ _ _ Hx Hok Hd Hsd Hb Hbf Hback)
      as (s & p & x' & w1 & Hget & -> & B & _).
    exists p, w1, (landed this (content_stream x w) p cs x' w1),
      (set_buffering None (set_content None None (Some (concat cs)) x')).
    split.
    { apply (getSize_follows_getBuffer _ _ x (Then p id)); [exact Hx| |exact Hget].
      destruct Hback as [s Hf Hs _|f Hf _ _]; rewrite ?Hf, ?Hs, Hb; reflexivity. }
    split; [rewrite <- (flying_0 _ _ _ _ _ _ _ B) at 1; apply emits_landing; [exact B|lia..]|].
    split; [|split; [cbn; apply list_lookup_insert_eq;
                     eapply lookup_lt_Some, (buffering_resource _ _ _ _ _ _ _ B)|reflexivity]].
    cbn. rewrite list_lookup_insert_eq; [reflexivity|].
    eapply lookup_lt_Some, (buffering_promise _ _ _ _ _ _ _ B).
  - intros Ht Hd.
    apply (getSize_follows_getBuffer _ _ x (Reject (ContentDrained (_path x)))); [exact Hx|exact Ht|].
    unfold getBuffer, async, catch.
    rewrite (bind_inr _ _ _ _ _ (deref_Some _ _ _ _ Hx)), Hd. reflexivity.
Qed.

End Size.

Section ModifiedAtConstruction.
Context `{Runtime}.

(** C10. The constructor writes the flag of the source handle it is given:
    whatever the flag was, it is up afterwards when a buffer or a string
    is the content (the constructor puts it down, its [setBuffer] raises
    it), and down afterwards when there is neither. [clone] gives the
    source handle of the original to the constructor, so the flag of the
    handle the two resources share is written once more: up for the clone
    of a resource with a buffer, down for the clone of one with a
    callback. *)
Theorem constructor_and_clone_write_modified :
  (forall o w s,
     well_formed w o -> conflicting o = false -> Parameters.source o = Some s ->
     exists this w',
       constructor o w = (inr this, w') /\
       (is_Some (Parameters.buffer o) \/ is_Some (Parameters.string o) ->
        Parameters.stream o = None -> Parameters.createStream o = None ->
        sources w' !! s = Some {| modified := true |}) /\
       (Parameters.buffer o = None -> Parameters.string o = None ->
        sources w' !! s = Some {| modified := false |})) /\
  (forall w this x st s,
     resources w !! this = Some x -> nonempty (Some (_path x)) = true ->
     stats w !! _statInfo x = Some st ->
     _source x = Some s -> is_Some (sources w !! s) ->
     _stream x = None ->
     exists q w1 c w2 y,
       clone this w = (inr q, w1) /\
       clone_new q w1 = (inr (Some c), w2) /\
       resources w2 !! c = Some y /\ _source y = Some s /\
       (forall b, _createStream x = None -> _buffer x = Some b ->
                  sources w2 !! s = Some {| modified := true |}) /\
       (forall f, _createStream x = Some f ->
                  sources w2 !! s = Some {| modified := false |})).
Proof.
  split.
  - intros o w s [Hp Hsrc] Hc Hs.
    exists (length (resources w)), (constructed o w).
    split; [apply constructor_eq; assumption|].
    assert (Hlt : s < length (sources w)).
    { destruct (Hsrc s Hs) as [src Hsome]. eapply lookup_lt_Some, Hsome. }
    cbn. rewrite Hs. split.
    + intros Hbs Hst Hf. rewrite list_lookup_insert_eq by exact Hlt.
      unfold initial_buffer. rewrite Hst, Hf.
      destruct Hbs as [[b ->]|[str ->]]; [reflexivity|].
      destruct (Parameters.buffer o); reflexivity.
    + intros Hb Hstr. rewrite list_lookup_insert_eq by exact Hlt.
      unfold initial_buffer. rewrite Hb, Hstr.
      destruct (Parameters.createStream o), (Parameters.stream o); reflexivity.
  - intros w this x st s Hx Hp Hst Hs Hsome Hstream.
    assert (Hok : source_ok w x).
    { intros s' Hs'. rewrite Hs in Hs'. injection Hs' as <-. exact Hsome. }
    assert (Hlt : s < length (sources w)).
    { destruct Hsome as [src Hsome]. eapply lookup_lt_Some, Hsome. }
    set (b := match _createStream x with Some _ => None | None => _buffer x end).
    destruct (constructor_clone_options this w (with_stats (fun l => l ++ [st]) w)
                x st b (_createStream x) Hx eq_refl Hp Hok Hst eq_refl)
      as (w2 & Hnew & Hres & Hsources & _ & Hcl).
    { subst b. destruct (_createStream x); [reflexivity|apply andb_false_r]. }
    exists (Resolve (clone_options x (length (stats w)) b (_createStream x))),
      (with_stats (fun l => l ++ [st]) w), (length (resources w)), w2,
      (initial (clone_options x (length (stats w)) b (_createStream x))
         (with_stats (fun l => l ++ [st]) w)).
    split; [exact (clone_no_stream _ _ _ _ Hx Hst Hstream)|].
    split; [rewrite clone_new_Resolve, (bind_inr _ _ _ _ _ Hnew); reflexivity|].
    split; [rewrite Hres; apply list_lookup_middle; reflexivity|].
    split; [exact Hs|].
    rewrite Hsources, Hs. cbn. rewrite list_lookup_insert_eq by exact Hlt. split.
    + intros b' Hf Hb. subst b. rewrite Hf, Hb. reflexivity.
    + intros f Hf. subst b. rewrite Hf. reflexivity.
Qed.

End ModifiedAtConstruction.

(** ** The project *)

Section ProjectAssignment.
Context `{Runtime} (this : ref).

(** The first assignment succeeds, and [hasProject] is true from then on. *)
Lemma setProject_first w x project :
  resources w !! this = Some x -> __project x = None ->
  exists w', setProject this project w = (inr tt, w') /\
             hasProject this w' = (inr true, w') /\
             getProject this w' = (inr (Some project), w').
Proof.
  intros Hx Hp. exists (with_resources (<[this := set_project (Some project) x]>) w).
  assert (Hx' : resources (with_resources (<[this := set_project (Some project) x]>) w)
                !! this = Some (set_project (Some project) x))
    by (eapply lookup_modified, Hx).
  split; [|split].
  - unfold setProject. rewrite (bind_inr _ _ _ _ _ (deref_Some _ _ _ _ Hx)), Hp.
    apply modifyResource_Some, Hx.
  - unfold hasProject. rewrite (bind_inr _ _ _ _ _ (deref_Some _ _ _ _ Hx')). reflexivity.
  - unfold getProject. rewrite (bind_inr _ _ _ _ _ (deref_Some _ _ _ _ Hx')). reflexivity.
Qed.

(** An assignment to a resource that has a project throws, and the error
    holds the name of the new project and the string of the old one. *)
Lemma setProject_second w x existing project :
  resources w !! this = Some x -> __project x = Some existing ->
  setProject this project w =
    (inl (ProjectAlreadyAssigned (Project.getName project) (_path x)
            (Project.toString existing)), w).
Proof.
  intros Hx Hp. unfold setProject.
  rewrite (bind_inr _ _ _ _ _ (deref_Some _ _ _ _ Hx)), Hp. reflexivity.
Qed.

End ProjectAssignment.

(** ** The claims at concrete resources *)

(** C4 fails on the code. The stream of a resource emits [error] while
    [getBuffer] buffers it: the promise is rejected and no buffer is
    installed, but [_buffering] keeps the rejected promise. [setStream]
    with a new stream does not help: the next [getBuffer] returns the old
    promise, rejected with the old error, and the new stream keeps its
    chunks, since nobody listens to it. *)
Theorem stream_error_leaves_stale_buffering :
  exists w x,
    read_after_failure two_streams = (inr (Then 0 id, Then 0 id), w) /\
    await w (Then 0 id) = Some (inl (StreamError "EIO")) /\
    resources w !! 0 = Some x /\
    _buffering x = Some 0 /\ _buffer x = None /\ _stream x = Some 1 /\
    streams w !! 1 = Some (untouched hello End).
Proof. eexists _, _. repeat split. Qed.

(** C8 fails on the code. The message of the error names the project that
    is assigned, and for the project the resource has it holds what the
    template literal makes of the object, not its name. *)
Theorem setProject_message_lacks_existing_name :
  exists e,
    (assign_twice (empty_world 0)).1 = inl e /\
    message e = "Unable to assign project lib to resource /a.js: " +:+
                "Resource is already associated to project [object Object]".
Proof. eexists. split; reflexivity. Qed.

(** C9 as the spec has it fails: a resource with a buffer whose stream was
    asked for has a content source, and [getSize] does not return the
    length of the buffer, it fails. *)
Lemma getSize_of_drained_content_fails :
  (size_after_getStream (empty_world 0)).1 = inr (Reject (ContentDrained "/a.js")).
Proof. reflexivity. Qed.

(** While a buffering is on, [getStream] of a resource with a callback
    returns one more stream and flags the content as drained; the [end]
    listener of the buffering then calls [setBuffer], which puts the flag
    down: [getBuffer] returns the buffer. *)
Example buffering_that_ends_resets_the_flag :
  (let* q1 := getBuffer 0 in
   let* s := getStream 0 in
   let* d := getBuffer 0 in
   emits 3 2;;
   let* q2 := getBuffer 0 in
   ret (q1, s, d, q2)) with_callback =
  (inr (Then 0 id, 3, Reject (ContentDrained "/a.js"), Resolve (concat hello)),
   landed 0 2 0 hello
     (set_contentDrained true (set_buffering (Some 0) callback_fields))
     (getStream 0 (getBuffer 0 with_callback).2).2).
Proof. reflexivity. Qed.

Lemma source_ok_0 (w : World) (x : Resource) (src : Source) :
  _source x = Some 0 -> sources w !! 0 = Some src -> source_ok w x.
Proof.
  intros Hx Hw s Hs. rewrite Hx in Hs. injection Hs as <-. exists src. exact Hw.
Defined.

(** C1. The drained state does not last until new content is set. A
    resource with a callback is read with [getBuffer], which starts a
    buffering of the stream 2; [getStream] then returns the stream 3, and
    [getBuffer] fails with the error for drained content. Nobody calls
    [setBuffer], [setString] or [setStream]; the stream 2 emits its two
    chunks and ends, and its [end] listener calls [setBuffer]. From then
    on [getBuffer] returns the buffer and [getStream] returns one more
    stream, 4, that has the bytes of the buffer. *)
Theorem getStream_returns_again_after_buffering_ends :
  (stream_asked_while_buffering 0 2 3 with_callback).1 =
    inr (Then 0 id, 3, Reject (ContentDrained "/a.js"), Resolve (concat hello), 4) /\
  calls (stream_asked_while_buffering 0 2 3 with_callback).2 = [7; 7] /\
  streams (stream_asked_while_buffering 0 2 3 with_callback).2 !! 4 =
    Some (untouched [concat hello] End).
Proof. repeat split; vm_compute; reflexivity. Qed.

(** The drained state at the resource with a buffer: [getStream], then
    [getSize], then the three reads fail; after [setString], [getStream]
    returns. *)
Lemma getStream_drains_witness :
  getStream 0 with_buffer = (inr 2, (getStream 0 with_buffer).2) /\
  fails_ContentDrained 0 (step (GetSize 0) (getStream 0 with_buffer).2) /\
  exists s w,
    getStream 0 (step (SetString 0 "x") (step (GetSize 0) (getStream 0 with_buffer).2)) =
      (inr s, w).
Proof.
  split; [reflexivity|].
  destruct (getStream_drains_until_content_is_set 0 with_buffer 2
              (getStream 0 with_buffer).2 eq_refl) as [Hfail Hset].
  assert (Hq : quiet 0 (getStream 0 with_buffer).2 [GetSize 0]
                 (step (GetSize 0) (getStream 0 with_buffer).2))
    by (apply quiet_cons; [reflexivity|apply quiet_nil]).
  split; [exact (Hfail _ _ Hq)|].
  apply (Hset _ _ (SetString 0 "x") Hq); [|constructor].
  intros x Hx. apply (source_ok_0 _ _ {| modified := true |}); [|reflexivity].
  vm_compute in Hx. injection Hx as <-. reflexivity.
Defined.

(** C2 at the resource with the stream that ends. *)
Lemma concurrent_getBuffer_witness :
  resources with_stream !! 0 = Some stream_fields /\
  source_ok with_stream stream_fields /\
  stream_backed with_stream stream_fields hello End /\
  exists s p w1 qs w2 w3,
    getBuffer 0 with_stream = (inr (Then p id), w1) /\
    readers 0 s [Read; Tick; Read; Tick; Tick; Read] w1 = (inr qs, w2) /\
    emits 3 s w2 = (inr tt, w3) /\
    Forall (fun q => await w3 q = Some (inr (concat hello))) (Then p id :: qs) /\
    streams w3 !! s = Some (ended 0 p hello End).
Proof.
  assert (Hok : source_ok with_stream stream_fields)
    by (apply (source_ok_0 _ _ {| modified := false |}); reflexivity).
  assert (Hback : stream_backed with_stream stream_fields hello End)
    by (apply (backed_by_stream _ _ _ _ 1); reflexivity).
  split; [reflexivity|]. split; [exact Hok|]. split; [exact Hback|].
  destruct (concurrent_getBuffer_shares_one_buffering 0 with_stream stream_fields hello
              eq_refl Hok eq_refl eq_refl eq_refl eq_refl Hback)
    as (s & p & w1 & Hget & _ & _ & Hall).
  destruct (Hall [Read; Tick; Read; Tick; Tick; Read])
    as (qs & w2 & w3 & Hread & _ & Hemits & Hawait & Hs & _).
  exists s, p, w1, qs, w2, w3. auto.
Defined.

(** C3 at the four kinds of content. *)
Lemma first_getBuffer_witness :
  well_formed two_streams buffer_parameters /\
  getBuffer 0 with_buffer = (inr (Resolve [x68; x69]), with_buffer) /\
  (exists p w2 w3,
     getBuffer 0 with_stream = (inr (Then p id), w2) /\
     emits 3 1 w2 = (inr tt, w3) /\
     await w3 (Then p id) = Some (inr (concat hello))).
Proof.
  assert (Hwf : forall o, Parameters.path o = Some "/a.js" -> Parameters.source o = Some 0 ->
                          well_formed two_streams o).
  { intros o Hp Hs. split; [rewrite Hp; reflexivity|].
    intros s. rewrite Hs. intros [= <-]. eexists. reflexivity. }
  split; [apply Hwf; reflexivity|]. split.
  - apply (proj1 (first_getBuffer_returns_supplied_content buffer_parameters two_streams
                    (Hwf buffer_parameters eq_refl eq_refl))); reflexivity.
  - destruct (proj1 (proj2 (proj2 (first_getBuffer_returns_supplied_content
                stream_parameters two_streams (Hwf stream_parameters eq_refl eq_refl)))) 1 hello
                eq_refl eq_refl eq_refl eq_refl eq_refl)
      as (p & w2 & w3 & _ & Hget & _ & Hemits & Hawait).
    exists p, w2, w3. auto.
Defined.

(** C6 at the resource with the stream that ends. *)
Lemma clone_witness :
  resources with_stream !! 0 = Some stream_fields /\
  source_ok with_stream stream_fields /\
  exists q w1 w2 w3,
    clone 0 with_stream = (inr q, w1) /\
    emits 3 1 w1 = (inr tt, w2) /\
    clone_new q w2 = (inr (Some 1), w3) /\
    cloned with_stream 0 stream_fields (default_statInfo 0) 1 w3 /\
    getBuffer 1 w3 = (inr (Resolve (concat hello)), w3).
Proof.
  assert (Hok : source_ok with_stream stream_fields)
    by (apply (source_ok_0 _ _ {| modified := false |}); reflexivity).
  split; [reflexivity|]. split; [exact Hok|].
  destruct (proj2 (proj2 (clone_is_independent with_stream 0 stream_fields
              (default_statInfo 0) eq_refl eq_refl Hok eq_refl)) 1 hello
              eq_refl eq_refl eq_refl eq_refl eq_refl)
    as (q & w1 & w2 & w3 & p & Hclone & _ & Hemits & _ & Hnew & Hcl & Hget).
  exists q, w1, w2, w3. auto.
Defined.

(** C7 at the resource with the stream that ends; the constructor has put
    the flag of its source handle down. *)
Lemma reading_keeps_modified_witness :
  sources with_stream !! 0 = Some {| modified := false |} /\
  (exists p w1 w2,
     getBuffer 0 with_stream = (inr (Then p id), w1) /\
     emits 3 1 w1 = (inr tt, w2) /\
     await w2 (Then p id) = Some (inr (concat hello)) /\
     sources w2 !! 0 = Some {| modified := false |}) /\
  (exists w', setBuffer 0 [x68] with_stream = (inr tt, w') /\
              sources w' !! 0 = Some {| modified := true |}).
Proof.
  split; [reflexivity|].
  destruct (reading_keeps_modified_and_setBuffer_raises_it 0 with_stream stream_fields 0
              eq_refl eq_refl eq_refl) as [Hread Hwrite].
  split; [|exact (Hwrite [x68])].
  destruct (Hread hello eq_refl eq_refl eq_refl eq_refl
              (backed_by_stream with_stream stream_fields hello End 1
                 eq_refl eq_refl eq_refl))
    as (p & w1 & w2 & y & Hget & _ & _ & Hemits & Hawait & _ & _ & Hsrc).
  exists p, w1, w2. auto.
Defined.

(** C9 at the resource with a buffer, before and after [getStream]. *)
Lemma getSize_witness :
  resources with_buffer !! 0 = Some buffer_fields /\
  getSize 0 with_buffer = (inr (Resolve 2), with_buffer) /\
  getSize 0 (getStream 0 with_buffer).2 =
    (inr (Reject (ContentDrained "/a.js")), (getStream 0 with_buffer).2).
Proof.
  split; [reflexivity|]. split.
  - apply (proj1 (proj2 (getSize_is_zero_or_the_length_of_getBuffer 0 with_buffer
                           buffer_fields eq_refl)) [x68; x69]); reflexivity.
  - apply (proj2 (proj2 (proj2 (getSize_is_zero_or_the_length_of_getBuffer 0
                    (getStream 0 with_buffer).2 (set_contentDrained true buffer_fields)
                    eq_refl)))); reflexivity.
Defined.

(** C10 at the resource with a buffer and at the clone of the resource
    with a callback: the flag was up, the constructor leaves it up for the
    buffer, and the clone leaves it down. *)
Lemma constructor_and_clone_witness :
  well_formed two_streams buffer_parameters /\
  sources two_streams !! 0 = Some {| modified := true |} /\
  sources with_buffer !! 0 = Some {| modified := true |} /\
  (exists q w1 c w2,
     clone 0 (setBuffer 0 [] with_callback).2 = (inr q, w1) /\
     clone_new q w1 = (inr (Some c), w2) /\
     sources w2 !! 0 = Some {| modified := true |}) /\
  (exists q w1 c w2,
     clone 0 (with_sources (<[0 := {| modified := true |}]>) with_callback) = (inr q, w1) /\
     clone_new q w1 = (inr (Some c), w2) /\
     sources w2 !! 0 = Some {| modified := false |}).
Proof.
  assert (Hwf : well_formed two_streams buffer_parameters).
  { split; [reflexivity|]. intros s [= <-]. eexists. reflexivity. }
  split; [exact Hwf|]. split; [reflexivity|].
  destruct constructor_and_clone_write_modified as [Hnew Hclone]. split; [|split].
  - destruct (Hnew buffer_parameters two_streams 0 Hwf eq_refl eq_refl)
      as (this & w' & Hc & Hup & _).
    assert (E : w' = with_buffer) by (unfold with_buffer; rewrite Hc; reflexivity).
    rewrite <- E. apply Hup; [left; eexists|..]; reflexivity.
  - assert (Hsome : is_Some (sources (setBuffer 0 [] with_callback).2 !! 0))
      by (exists {| modified := true |}; reflexivity).
    destruct (Hclone (setBuffer 0 [] with_callback).2 0
                (set_content None None (Some []) callback_fields)
                (default_statInfo 0) 0 eq_refl eq_refl eq_refl eq_refl
                Hsome eq_refl)
      as (q & w1 & c & w2 & y & Hcl & Hn & _ & _ & Hup & _).
    exists q, w1, c, w2. split; [exact Hcl|]. split; [exact Hn|].
    apply (Hup []); reflexivity.
  - assert (Hsome : is_Some (sources (with_sources (<[0 := {| modified := true |}]>)
                                        with_callback) !! 0))
      by (exists {| modified := true |}; reflexivity).
    destruct (Hclone (with_sources (<[0 := {| modified := true |}]>) with_callback) 0
                callback_fields (default_statInfo 0) 0 eq_refl eq_refl eq_refl eq_refl
                Hsome eq_refl)
      as (q & w1 & c & w2 & y & Hcl & Hn & _ & _ & _ & Hdown).
    exists q, w1, c, w2. split; [exact Hcl|]. split; [exact Hn|].
    apply (Hdown hello_callback); reflexivity.
Defined.

(** * Further properties *)

(** ** What every method keeps: the proofs *)

Section ConstructorCases.
Context `{Runtime}.

Lemma constructor_dangling_source o w s :
  nonempty (Parameters.path o) = true -> conflicting o = false ->
  Parameters.source o = Some s -> sources w !! s = None ->
  constructor o w = (inl TypeError, w).
Proof.
  intros Hp Hc Hs Hnone. unfold constructor. unfold conflicting in Hc.
  destruct (Parameters.path o) as [[|c p]|]; try done.
  rewrite Hc, Hs. unfold bind at 1. unfold bind at 1. unfold deref. rewrite Hnone.
  reflexivity.
Qed.

(** The constructor throws before it has written anything, or returns the
    next resource of the store. *)
Lemma constructor_cases o w :
  (exists e, constructor o w = (inl e, w)) \/
  (nonempty (Parameters.path o) = true /\ conflicting o = false /\
   (forall s, Parameters.source o = Some s -> is_Some (sources w !! s)) /\
   constructor o w = (inr (length (resources w)), constructed o w)).
Proof.
  destruct (nonempty (Parameters.path o)) eqn:Hp;
    [|left; eexists; apply constructor_missing_path, Hp].
  destruct (conflicting o) eqn:Hc;
    [left; eexists; apply constructor_conflicting; assumption|].
  destruct (Parameters.source o) as [s|] eqn:Hs.
  - destruct (sources w !! s) as [src|] eqn:Hsrc.
    + right. repeat split; try done.
      * intros s' [= <-]. eauto.
      * apply constructor_eq; try done. rewrite Hs. intros s' [= <-]. eauto.
    + left. eexists. eapply constructor_dangling_source; eassumption.
  - right. repeat split; try done. apply constructor_eq; try done.
    rewrite Hs. done.
Qed.

End ConstructorCases.

Section MethodStable.
Context `{Runtime} (I : World -> Prop) (HI : method_stable I).

Lemma stable_update f :
  (forall w, resources (f w) = resources w /\ stats w `prefix_of` stats (f w)) ->
  keeps I (update f).
Proof.
  intros Hf. apply keeps_update. intros w Hw.
  destruct (Hf w) as [Hr Hs]. exact (stable_heaps I HI w (f w) Hr Hs Hw).
Qed.

Lemma stable_alloc {A} (m : M A) :
  (forall w, resources (m w).2 = resources w /\ stats w `prefix_of` stats (m w).2) ->
  keeps I m.
Proof.
  intros Hm w Hw. destruct (Hm w) as [Hr Hs]. exact (stable_heaps I HI w _ Hr Hs Hw).
Qed.

Lemma stable_modifyResource r f :
  (forall x, assignment x (f x)) -> keeps I (modifyResource r f).
Proof.
  intros Hf w Hw. unfold modifyResource, bind, deref.
  destruct (resources w !! r) as [x|] eqn:Hx; [|exact Hw].
  cbn. exact (stable_assignment I HI w r x (f x) Hx (Hf x) Hw).
Qed.

Create HintDb stable.

Ltac stable_step :=
  first
    [ solve [eauto 2 with stable nocore]
    | apply keeps_ret | apply keeps_throw | apply keeps_deref
    | apply stable_modifyResource; intros ?; constructor
    | apply keeps_bind; [|intros ?]
    | apply keeps_catch; [|intros ?]
    | apply stable_update; intros ?; split; reflexivity
    | apply stable_alloc; intros ?; split; [reflexivity|cbn; apply prefix_app_r; reflexivity]
    | apply stable_alloc; intros ?; split; reflexivity
    | match goal with
      | |- keeps _ (match ?x with _ => _ end) => destruct x
      | |- keeps _ (if ?x then _ else _) => destruct x
      end ].

Ltac stable_auto := repeat stable_step.

Lemma stable_settle p s : keeps I (settle p s).
Proof. unfold settle. stable_auto. Qed.
#[local] Hint Resolve stable_settle : stable.

Lemma stable_setBuffer r b : keeps I (setBuffer r b).
Proof. unfold setBuffer. stable_auto. Qed.
#[local] Hint Resolve stable_setBuffer : stable.

Lemma stable_setStream r a : keeps I (setStream r a).
Proof. unfold setStream. stable_auto. Qed.
#[local] Hint Resolve stable_setStream : stable.

Lemma stable_call f : keeps I (call f).
Proof. unfold call. stable_auto. Qed.
#[local] Hint Resolve stable_call : stable.

Lemma stable_on s l : keeps I (on s l).
Proof. unfold on. stable_auto. Qed.
#[local] Hint Resolve stable_on : stable.

Lemma stable__getStream r : keeps I (_getStream r).
Proof. unfold _getStream. stable_auto. Qed.
#[local] Hint Resolve stable__getStream : stable.

Lemma stable__getBufferFromStream r : keeps I (_getBufferFromStream r).
Proof. unfold _getBufferFromStream, executor. stable_auto. Qed.
#[local] Hint Resolve stable__getBufferFromStream : stable.

Lemma stable_getBuffer r : keeps I (getBuffer r).
Proof. unfold getBuffer, async. stable_auto. Qed.
#[local] Hint Resolve stable_getBuffer : stable.

Lemma stable_getString r : keeps I (getString r).
Proof. unfold getString. stable_auto. Qed.

Lemma stable_getSize r : keeps I (getSize r).
Proof. unfold getSize, async. stable_auto. Qed.

Lemma stable_getStream r : keeps I (getStream r).
Proof. unfold getStream, PassThrough_end. stable_auto. Qed.

Lemma stable_setPath r p : keeps I (setPath r p).
Proof. unfold setPath. stable_auto. Qed.

Lemma stable_pushCollection r n : keeps I (pushCollection r n).
Proof.
  intros w Hw. unfold pushCollection, modifyResource, bind, deref.
  destruct (resources w !! r) as [x|] eqn:Hx; [|exact Hw].
  cbn. rewrite Hx. cbn.
  exact (stable_assignment I HI w r x _ Hx (assign_collection n x) Hw).
Qed.

Lemma stable_setProject r p : keeps I (setProject r p).
Proof.
  intros w Hw. unfold setProject, modifyResource, bind, deref.
  destruct (resources w !! r) as [x|] eqn:Hx; [|exact Hw].
  cbn. destruct (__project x) eqn:Hp; [exact Hw|]. rewrite Hx. cbn.
  exact (stable_assignment I HI w r x _ Hx (assign_project p x Hp) Hw).
Qed.

Lemma stable_clone r : keeps I (clone r).
Proof. unfold clone, _getCloneOptions, async. stable_auto. Qed.

Lemma stable_constructor o : keeps I (constructor o).
Proof.
  intros w Hw. destruct (constructor_cases o w) as [[e ->]|(Hp & Hc & _ & ->)]; [exact Hw|].
  exact (stable_constructed I HI o w Hp Hc Hw).
Qed.

Lemma stable_clone_new q : keeps I (clone_new q).
Proof.
  intros w Hw. unfold clone_new. destruct (await w q) as [[e|o]|]; try exact Hw.
  unfold bind. pose proof (stable_constructor o w Hw) as Hc.
  destruct (constructor o w) as [[e|c] w']; exact Hc.
Qed.

Lemma stable_on_end l : keeps I (on_end l).
Proof. unfold on_end. stable_auto. Qed.

Lemma stable_emit s : keeps I (emit s).
Proof.
  unfold emit, on_error. stable_auto; apply keeps_each; intros; first [apply stable_on_end|apply stable_settle].
Qed.

(** Every operation keeps a property that is stable. *)
Lemma stable_step op w : I w -> I (step op w).
Proof.
  destruct op; cbn [step].
  - apply stable_getBuffer.
  - apply stable_getString.
  - apply stable_getStream.
  - apply stable_getSize.
  - apply stable_setBuffer.
  - apply stable_setBuffer.
  - apply stable_setStream.
  - apply stable_setPath.
  - apply stable_pushCollection.
  - apply stable_setProject.
  - apply stable_clone.
  - apply stable_clone_new.
  - apply stable_constructor.
  - apply stable_emit.
Qed.

Lemma stable_run ops w : I w -> I (run ops w).
Proof.
  revert w. induction ops as [|op ops IH]; intros w Hw; [exact Hw|].
  cbn. apply IH, stable_step, Hw.
Qed.

End MethodStable.


Section Invariants.
Context `{Runtime}.

Lemma assignment_exclusive x x' : assignment x x' -> exclusive x -> exclusive x'.
Proof.
  unfold exclusive. intros [] Hx; cbn in *; try exact Hx; lia.
Qed.

Lemma initial_exclusive o w : exclusive (initial o w).
Proof.
  unfold exclusive, initial, initial_buffer. cbn.
  destruct (Parameters.createStream o), (Parameters.stream o), (Parameters.buffer o),
    (Parameters.string o); cbn; lia.
Qed.

Lemma all_exclusive_stable : method_stable all_exclusive.
Proof.
  unfold all_exclusive. constructor.
  - intros w w' -> _ Hw. exact Hw.
  - intros w r x x' Hx Ha Hw. cbn. apply Forall_insert; [exact Hw|].
    apply (assignment_exclusive x x' Ha). eapply Forall_lookup_1; eassumption.
  - intros o w _ _ Hw. cbn. apply Forall_app. split; [exact Hw|].
    constructor; [apply initial_exclusive|constructor].
Qed.

(** Resource-local properties: what is said of the fields of [this] is
    kept by every assignment, and resources are never taken away. *)
Lemma local_stable this (P : Resource -> Prop) (Q I : World -> Prop) :
  (forall w, I w <-> (exists x, resources w !! this = Some x /\ P x) /\ Q w) ->
  (forall x x', assignment x x' -> P x -> P x') ->
  (forall w w', stats w `prefix_of` stats w' -> Q w -> Q w') ->
  method_stable I.
Proof.
  intros HI HP HQ. constructor.
  - intros w w' Hr Hs [(x & Hx & Hpx) Hq]%HI. apply HI.
    split; [|exact (HQ w w' Hs Hq)]. exists x. rewrite Hr. auto.
  - intros w r x x' Hx Ha [(y & Hy & Hpy) Hq]%HI. apply HI.
    split; [|apply (HQ w); [reflexivity|exact Hq]].
    cbn. destruct (decide (r = this)) as [->|Hne].
    + exists x'. split; [apply list_lookup_insert_eq; eapply lookup_lt_Some, Hx|].
      apply (HP x x' Ha). congruence.
    + exists y. rewrite list_lookup_insert_ne by exact Hne. auto.
  - intros o w _ _ [(x & Hx & Hpx) Hq]%HI. apply HI. split.
    + exists x. split; [cbn; apply lookup_app_l_Some, Hx|exact Hpx].
    + apply (HQ w); [|exact Hq]. cbn.
      destruct (Parameters.statInfo o); [reflexivity|apply prefix_app_r; reflexivity].
Qed.

Lemma identified_stable this st info src : method_stable (identified this st info src).
Proof.
  apply (local_stable this (fun x => _statInfo x = st /\ _source x = src)
           (fun w => stats w !! st = Some info)).
  - intros w. unfold identified. split.
    + intros (x & Hx & H1 & H2 & H3). split; [exists x|]; auto.
    + intros [(x & Hx & H1 & H2) H3]. exists x. auto.
  - intros x x' [] Hx; exact Hx.
  - intros w w' [k ->] Hw. apply lookup_app_l_Some, Hw.
Qed.

Lemma assigned_stable this project : method_stable (assigned this project).
Proof.
  apply (local_stable this (fun x => __project x = Some project) (fun _ => True)).
  - intros w. unfold assigned. tauto.
  - intros x x' [] Hx; try exact Hx. cbn in *. congruence.
  - auto.
Qed.

Lemma collected_stable this names : method_stable (collected this names).
Proof.
  apply (local_stable this (fun x => names `prefix_of` _collections x) (fun _ => True)).
  - intros w. unfold collected. tauto.
  - intros x x' [] Hx; try exact Hx. cbn. apply prefix_app_r, Hx.
  - auto.
Qed.

End Invariants.


(** ** The trace tree and the collections *)

Section PathTree.
Context `{Runtime}.

Lemma assign_at_nest pointer key value :
  assign_at pointer key value (nest pointer (Object [])) =
  nest (pointer ++ [key]) value.
Proof.
  induction pointer as [|k pointer IH]; cbn; [reflexivity|].
  rewrite String.eqb_refl. cbn. rewrite IH. reflexivity.
Qed.

Lemma getPathTree_loop_nest collections i pointer :
  i <= length collections ->
  getPathTree_loop collections i pointer (nest pointer (Object [])) =
  nest (pointer ++ rev (take i collections)) (Object []).
Proof.
  revert pointer. induction i as [|i IH]; intros pointer Hi; cbn [getPathTree_loop].
  - rewrite take_0. cbn. rewrite app_nil_r. reflexivity.
  - destruct (lookup_lt_is_Some_2 collections i ltac:(lia)) as [name Hname].
    rewrite Hname, assign_at_nest, IH by lia.
    rewrite (take_S_r _ _ _ Hname), rev_app_distr. cbn. rewrite <- app_assoc. reflexivity.
Qed.

Lemma getPathTree_eq this w x :
  resources w !! this = Some x ->
  getPathTree this w = (inr (nest (_path x :: rev (_collections x)) (Object [])), w).
Proof.
  intros Hx. unfold getPathTree. rewrite (bind_inr _ _ _ _ _ (deref_Some _ _ _ _ Hx)).
  unfold ret. do 2 f_equal.
  change (assign_at [] (_path x) (Object []) (Object [])) with (nest [_path x] (Object [])).
  rewrite getPathTree_loop_nest by reflexivity. rewrite firstn_all. reflexivity.
Qed.

Lemma pushCollection_eq this w x name :
  resources w !! this = Some x ->
  pushCollection this name w =
    (inr tt, with_resources (<[this := set_collections (_collections x ++ [name]) x]>) w).
Proof.
  intros Hx. unfold pushCollection.
  rewrite (bind_inr _ _ _ _ _ (deref_Some _ _ _ _ Hx)). apply modifyResource_Some, Hx.
Qed.

(** X13. [getPathTree] leaves the store alone and returns one object per
    collection, nested under the path: the collection pushed last is
    outermost, the one pushed first is innermost and empty. A collection
    that is pushed goes between the path and the tree there was. *)
Theorem getPathTree_nests_latest_collection_first this w x :
  resources w !! this = Some x ->
  getPathTree this w = (inr (nest (_path x :: rev (_collections x)) (Object [])), w) /\
  forall name, exists w',
    pushCollection this name w = (inr tt, w') /\
    getPathTree this w' =
      (inr (Object [(_path x, Object [(name, nest (rev (_collections x)) (Object []))])]), w').
Proof.
  intros Hx. split; [apply getPathTree_eq, Hx|].
  intros name. eexists. split; [apply pushCollection_eq, Hx|].
  erewrite getPathTree_eq by (eapply lookup_modified, Hx).
  cbn. rewrite rev_app_distr. reflexivity.
Qed.

End PathTree.

Section Runs.
Context `{Runtime}.

(** X2. Whatever is done, no resource holds two kinds of content: of
    buffer, stream and callback at most one is there. *)
Theorem content_stays_exclusive ops w :
  all_exclusive w ->
  forall r x, resources (run ops w) !! r = Some x -> exclusive x.
Proof.
  intros Hw r x Hx.
  pose proof (stable_run _ all_exclusive_stable ops w Hw) as Hall.
  eapply Forall_lookup_1; eassumption.
Qed.

(** X10. The stat object and the source handle of a resource are the ones it
    was made with, and the fields of the stat object are never written,
    whatever is done to the resource. *)
Theorem getStatInfo_and_getSource_never_change this st info src ops w :
  identified this st info src w ->
  let w' := run ops w in
  getStatInfo this w' = (inr st, w') /\
  stats w' !! st = Some info /\
  getSource this w' = (inr src, w').
Proof.
  intros Hw w'.
  destruct (stable_run _ (identified_stable this st info src) ops w Hw)
    as (x & Hx & Hst & Hsrc & Hinfo).
  fold w' in Hx, Hinfo. split; [|split; [exact Hinfo|]].
  - unfold getStatInfo. rewrite (bind_inr _ _ _ _ _ (deref_Some _ _ _ _ Hx)), Hst. reflexivity.
  - unfold getSource. rewrite (bind_inr _ _ _ _ _ (deref_Some _ _ _ _ Hx)), Hsrc. reflexivity.
Qed.

(** X11. A resource that has a project keeps it: whatever is done,
    [getProject] returns it, [hasProject] is true, and [setProject] throws
    and changes nothing. *)
Theorem project_is_never_replaced this project ops w :
  assigned this project w ->
  let w' := run ops w in
  getProject this w' = (inr (Some project), w') /\
  hasProject this w' = (inr true, w') /\
  forall other, exists path,
    setProject this other w' =
      (inl (ProjectAlreadyAssigned (Project.getName other) path (Project.toString project)),
       w').
Proof.
  intros Hw w'.
  destruct (stable_run _ (assigned_stable this project) ops w Hw) as (x & Hx & Hp).
  fold w' in Hx. split; [|split].
  - unfold getProject. rewrite (bind_inr _ _ _ _ _ (deref_Some _ _ _ _ Hx)), Hp. reflexivity.
  - unfold hasProject. rewrite (bind_inr _ _ _ _ _ (deref_Some _ _ _ _ Hx)), Hp. reflexivity.
  - intros other. exists (_path x). unfold setProject.
    rewrite (bind_inr _ _ _ _ _ (deref_Some _ _ _ _ Hx)), Hp. reflexivity.
Qed.

(** X12. The collections of a resource only grow at the end: whatever is
    done, the names that were pushed are still there, first, in the order
    they were pushed. *)
Theorem collections_are_append_only this x ops w :
  resources w !! this = Some x ->
  exists x', resources (run ops w) !! this = Some x' /\
             _collections x `prefix_of` _collections x'.
Proof.
  intros Hx.
  apply (stable_run _ (collected_stable this (_collections x)) ops w).
  exists x. split; [exact Hx|reflexivity].
Qed.

End Runs.


(** ** More about the constructor and the accessors *)

Section Outcomes.
Context `{Runtime}.

(** X1. The constructor checks the path first and the content parameters
    second; when it throws, the store is as it was; when it returns, the
    store has one more resource, whose content is the callback if there is
    one, else the stream, else the buffer, else the bytes of the string. *)
Theorem constructor_throws_early_or_adds_one_resource o w :
  (constructor o w = (inl MissingPath, w) <-> nonempty (Parameters.path o) = false) /\
  (constructor o w = (inl ConflictingContentParameters, w) <->
   nonempty (Parameters.path o) = true /\ conflicting o = true) /\
  (forall e w', constructor o w = (inl e, w') -> w' = w) /\
  (forall this w',
     constructor o w = (inr this, w') ->
     this = length (resources w) /\ conflicting o = false /\
     resources w' = resources w ++ [initial o w] /\
     _createStream (initial o w) = Parameters.createStream o /\
     (Parameters.createStream o = None -> _stream (initial o w) = Parameters.stream o) /\
     (Parameters.createStream o = None -> Parameters.stream o = None ->
      _buffer (initial o w) =
        match Parameters.buffer o with
        | Some b => Some b
        | None => Buffer_from <$> Parameters.string o
        end)).
Proof.
  assert (Hinit : Parameters.createStream o = None -> Parameters.stream o = None ->
            _buffer (initial o w) =
              match Parameters.buffer o with
              | Some b => Some b
              | None => Buffer_from <$> Parameters.string o
              end).
  { intros Hf Hs. cbn. unfold initial_buffer. rewrite Hf, Hs.
    destruct (Parameters.buffer o), (Parameters.string o); reflexivity. }
  assert (Hstream : Parameters.createStream o = None ->
            _stream (initial o w) = Parameters.stream o)
    by (intros Hf; cbn; rewrite Hf; reflexivity).
  assert (Hcases :
    (nonempty (Parameters.path o) = false /\ constructor o w = (inl MissingPath, w)) \/
    (nonempty (Parameters.path o) = true /\ conflicting o = true /\
     constructor o w = (inl ConflictingContentParameters, w)) \/
    (nonempty (Parameters.path o) = true /\ conflicting o = false /\
     constructor o w = (inl TypeError, w)) \/
    (nonempty (Parameters.path o) = true /\ conflicting o = false /\
     constructor o w = (inr (length (resources w)), constructed o w))).
  { destruct (nonempty (Parameters.path o)) eqn:Hp;
      [|left; split; [reflexivity|apply constructor_missing_path, Hp]].
    destruct (conflicting o) eqn:Hc;
      [right; left; repeat split; apply constructor_conflicting; assumption|].
    destruct (Parameters.source o) as [s|] eqn:Hs.
    - destruct (sources w !! s) as [src|] eqn:Hsrc.
      + do 3 right. repeat split. apply constructor_eq; try done.
        rewrite Hs. intros s' [= <-]. eauto.
      + right; right; left. repeat split.
        eapply constructor_dangling_source; eassumption.
    - do 3 right. repeat split. apply constructor_eq; try done. rewrite Hs. done. }
  destruct Hcases as [[Hp He]|[(Hp & Hc & He)|[(Hp & Hc & He)|(Hp & Hc & He)]]];
    rewrite He, Hp; clear He.
  - split; [tauto|]. split; [split; [discriminate|intros [? _]; discriminate]|].
    split; [congruence|discriminate].
  - rewrite Hc. split; [split; discriminate|]. split; [tauto|].
    split; [congruence|discriminate].
  - rewrite Hc. split; [split; discriminate|].
    split; [split; [discriminate|intros [_ ?]; discriminate]|].
    split; [congruence|discriminate].
  - rewrite Hc. split; [split; discriminate|].
    split; [split; [discriminate|intros [_ ?]; discriminate]|].
    split; [discriminate|].
    intros this w' [= <- <-]. repeat split; auto.
Qed.

(** X16. The constructor keeps the stat object it is given, the object
    itself and not a copy, and makes none; given none, it makes one that
    says regular file, with the time of the call in its eight time
    stamps. *)
Theorem constructor_keeps_statInfo o w :
  well_formed w o -> conflicting o = false ->
  exists this w',
    constructor o w = (inr this, w') /\
    (forall st, Parameters.statInfo o = Some st ->
                getStatInfo this w' = (inr st, w') /\ stats w' = stats w) /\
    (Parameters.statInfo o = None ->
     getStatInfo this w' = (inr (length (stats w)), w') /\
     stats w' = stats w ++ [default_statInfo (now w)] /\
     isFile (default_statInfo (now w)) = true /\
     isDirectory (default_statInfo (now w)) = false /\
     mtimeMs (default_statInfo (now w)) = now w).
Proof.
  intros [Hp Hsrc] Hc. exists (length (resources w)), (constructed o w).
  split; [apply constructor_eq; assumption|].
  assert (Hget : getStatInfo (length (resources w)) (constructed o w) =
                 (inr (_statInfo (initial o w)), constructed o w)).
  { unfold getStatInfo. erewrite bind_inr; [reflexivity|].
    apply deref_Some. cbn. apply list_lookup_middle. reflexivity. }
  rewrite Hget. cbn. split.
  - intros st ->. split; reflexivity.
  - intros ->. repeat split.
Qed.

End Outcomes.

Section Accessors.
Context `{Runtime} (this : ref).

(** X3. A resource without buffer, stream and callback: [getBuffer] and
    [getString] are rejected and [getStream] throws, each with the error
    that names the path and says there is no content; the store is as it
    was. *)
Theorem no_content_is_an_error w x :
  resources w !! this = Some x ->
  _contentDrained x = false ->
  _buffer x = None -> _stream x = None -> _createStream x = None ->
  getBuffer this w = (inr (Reject (NoContent (_path x))), w) /\
  getString this w = (inr (Reject (NoContent (_path x))), w) /\
  getStream this w = (inl (NoContent (_path x)), w).
Proof.
  intros Hx Hd Hb Hs Hf.
  assert (Hget : getBuffer this w = (inr (Reject (NoContent (_path x))), w)).
  { unfold getBuffer, async, catch.
    rewrite (bind_inr _ _ _ _ _ (deref_Some _ _ _ _ Hx)), Hd, Hb, Hs, Hf. reflexivity. }
  split; [exact Hget|]. split.
  - unfold getString. rewrite (bind_inr _ _ _ _ _ (deref_Some _ _ _ _ Hx)), Hd.
    rewrite (bind_inr _ _ _ _ _ Hget). reflexivity.
  - unfold getStream. rewrite (bind_inr _ _ _ _ _ (deref_Some _ _ _ _ Hx)), Hd, Hb, Hs, Hf.
    reflexivity.
Qed.

(** X4. What is set can be read: after [setBuffer], whatever the resource
    held and whatever its flags were, [getBuffer] returns the buffer,
    [getSize] its length and [getString] its text, at once and without
    touching the store; after [setString] the buffer is the bytes of the
    string, and the text is the string when decoding undoes encoding. *)
Theorem setBuffer_then_read w x :
  resources w !! this = Some x -> source_ok w x ->
  (forall b, exists w',
     setBuffer this b w = (inr tt, w') /\
     getBuffer this w' = (inr (Resolve b), w') /\
     getSize this w' = (inr (Resolve (length b)), w') /\
     getString this w' = (inr (Resolve (Buffer_toString b)), w')) /\
  (forall str, exists w',
     setString this str w = (inr tt, w') /\
     getBuffer this w' = (inr (Resolve (Buffer_from str)), w') /\
     (Buffer_toString (Buffer_from str) = str ->
      getString this w' = (inr (Resolve str), w'))).
Proof.
  intros Hx Hok.
  assert (Hread : forall b, exists w',
            setBuffer this b w = (inr tt, w') /\
            getBuffer this w' = (inr (Resolve b), w') /\
            getSize this w' = (inr (Resolve (length b)), w') /\
            getString this w' = (inr (Resolve (Buffer_toString b)), w')).
  { intros b. eexists. split; [apply (setBuffer_eq _ _ _ _ Hx Hok)|].
    match goal with |- getBuffer _ ?w' = _ /\ _ =>
      assert (Hy : resources w' !! this = Some (set_content None None (Some b) x))
        by (eapply lookup_modified; rewrite touch_resources; exact Hx) end.
    pose proof (getBuffer_buffer _ _ _ b Hy eq_refl eq_refl) as Hget.
    split; [exact Hget|]. split.
    - unfold getSize, async, catch. rewrite (bind_inr _ _ _ _ _ (deref_Some _ _ _ _ Hy)).
      cbn [_buffer set_content truthy negb andb]. rewrite (bind_inr _ _ _ _ _ Hget). reflexivity.
    - unfold getString. rewrite (bind_inr _ _ _ _ _ (deref_Some _ _ _ _ Hy)).
      cbn [_contentDrained set_content]. rewrite (bind_inr _ _ _ _ _ Hget). reflexivity. }
  split; [exact Hread|].
  intros str. destruct (Hread (Buffer_from str)) as (w' & Hset & Hget & _ & Hstr).
  exists w'. split; [exact Hset|]. split; [exact Hget|]. intros <-. exact Hstr.
Qed.

(** [getStream] of a resource with a stream that is not flagged. *)
Lemma getStream_stream w x s :
  resources w !! this = Some x -> _contentDrained x = false ->
  _buffer x = None -> _createStream x = None -> _stream x = Some s ->
  _streamDrained x = false ->
  getStream this w =
    (inr s,
     with_resources (<[this := set_contentDrained true (set_streamDrained true x)]>) w).
Proof.
  intros Hx Hd Hb Hf Hs Hsd. unfold getStream.
  rewrite (bind_inr _ _ _ _ _ (deref_Some _ _ _ _ Hx)), Hd, Hb, Hf, Hs. cbn [truthy orb].
  rewrite (bind_inr _ _ _ _ _ (_getStream_stream _ _ _ Hx Hsd Hf)), Hs.
  erewrite bind_inr; [|apply modifyResource_Some; eapply lookup_modified; exact Hx].
  unfold ret. f_equal. destruct w. unfold with_resources. cbn. f_equal.
  apply list_insert_insert_eq.
Qed.

(** X5. What [getStream] hands out, for a resource whose content is not
    flagged as drained. With a buffer: a new stream that will end and
    whose chunks are the bytes of the buffer, the buffer as its one chunk
    and no chunk at all for the empty buffer; the resource keeps the
    buffer. With a callback: the new stream of one call. With a stream:
    that stream itself, with no listener added, and the stream is flagged
    as drained. In each case the content is flagged as drained
    afterwards. *)
Theorem getStream_hands_out w x :
  resources w !! this = Some x -> _contentDrained x = false ->
  (forall b,
     _buffer x = Some b ->
     exists cs,
       getStream this w =
         (inr (length (streams w)),
          with_resources (<[this := set_contentDrained true x]>)
            (with_streams (fun l => l ++ [untouched cs End]) w)) /\
       concat cs = b /\
       (b <> [] -> cs = [b]) /\
       (b = [] -> cs = [])) /\
  (forall f,
     _buffer x = None -> _createStream x = Some f -> _streamDrained x = false ->
     getStream this w =
       (inr (length (streams w)),
        with_resources (<[this := set_contentDrained true x]>)
          (with_streams (fun l => l ++ [untouched (factory_chunks f) (factory_terminal f)])
             (with_calls (cons (factory_id f)) w)))) /\
  (forall s,
     _buffer x = None -> _createStream x = None -> _stream x = Some s ->
     _streamDrained x = false ->
     getStream this w =
       (inr s,
        with_resources (<[this := set_contentDrained true (set_streamDrained true x)]>) w)).
Proof.
  intros Hx Hd. split; [|split].
  - intros b Hb. exists (written b). split; [|split; [|split]].
    + unfold getStream.
      rewrite (bind_inr _ _ _ _ _ (deref_Some _ _ _ _ Hx)), Hd, Hb.
      erewrite bind_inr; [|reflexivity]. cbv beta iota.
      erewrite bind_inr; [|apply modifyResource_Some; exact Hx]. reflexivity.
    + destruct b; [reflexivity|]. cbn. f_equal. apply app_nil_r.
    + destruct b; [intros E; destruct E|]; reflexivity.
    + intros ->. reflexivity.
  - intros f Hb Hf Hsd. unfold getStream.
    rewrite (bind_inr _ _ _ _ _ (deref_Some _ _ _ _ Hx)), Hd, Hb, Hf. cbn [truthy orb].
    rewrite (bind_inr _ _ _ _ _ (_getStream_callback _ _ _ _ Hx Hsd Hf)).
    erewrite bind_inr; [|apply modifyResource_Some; exact Hx]. reflexivity.
  - intros s Hb Hf Hs Hsd. apply getStream_stream; assumption.
Qed.

End Accessors.


(** ** Streams that are read twice, and content that is set too early *)

Section Twice.
Context `{Runtime} (this : ref).

(** [_getBufferFromStream] on a resource whose stream is flagged as
    drained: the promise is rejected by the executor, and it is the token
    from then on. *)
Lemma _getBufferFromStream_drained w x :
  resources w !! this = Some x -> _buffering x = None -> _streamDrained x = true ->
  _getBufferFromStream this w =
    (inr (length (promises w)),
     with_resources (<[this := set_buffering (Some (length (promises w))) x]>)
       (with_promises (fun l => l ++ [Rejected (StreamDrained (_path x))]) w)).
Proof.
  intros Hx Hb Hd. unfold _getBufferFromStream.
  rewrite (bind_inr _ _ _ _ _ (deref_Some _ _ _ _ Hx)), Hb.
  erewrite bind_inr; [|reflexivity].
  erewrite (bind_inr (catch _ _)).
  2:{ unfold catch, executor.
      erewrite bind_inl; [|exact (_getStream_drained _ (with_promises _ w) x Hx Hd)].
      unfold settle. erewrite bind_inr;
        [|eapply deref_Some; cbn; apply list_lookup_middle; reflexivity].
      reflexivity. }
  erewrite bind_inr; [|apply modifyResource_Some; exact Hx].
  destruct w as [rs ss sts sms ps cl nw].
  unfold ret, update, with_resources, with_promises; cbn in *. do 2 f_equal.
  rewrite insert_app_r_alt by lia. rewrite Nat.sub_diag. reflexivity.
Qed.

(** X6. While the stream of a resource is buffered, [getStream] throws the
    error for a drained stream and changes nothing, the flag for drained
    content least of all: the buffering goes on, and its promise gets all
    the chunks. *)
Theorem getStream_during_buffering_is_refused w x s cs :
  resources w !! this = Some x -> source_ok w x ->
  _contentDrained x = false -> _streamDrained x = false ->
  _buffer x = None -> _buffering x = None ->
  _createStream x = None -> _stream x = Some s ->
  streams w !! s = Some (untouched cs End) ->
  exists p w1 w2,
    getBuffer this w = (inr (Then p id), w1) /\
    getStream this w1 = (inl (StreamDrained (_path x)), w1) /\
    emits (S (length cs)) s w1 = (inr tt, w2) /\
    await w2 (Then p id) = Some (inr (concat cs)).
Proof.
  intros Hx Hok Hd Hsd Hb Hbf Hf Hs Hst.
  destruct (getBuffer_starts this x cs End w Hx Hok Hd Hsd Hb Hbf
              (backed_by_stream _ _ _ _ s Hf Hs Hst))
    as (s' & p & x' & w1 & Hget & Es & B & Hd' & Hb' & _).
  unfold content_stream in Es. rewrite Hf, Hs in Es. cbn in Es. subst s'.
  exists p, w1, (landed this s p cs x' w1).
  split; [exact Hget|]. split; [|split].
  - pose proof (buffering_resource _ _ _ _ _ _ _ B) as Hx'.
    assert (Hfields : _path x' = _path x /\ _createStream x' = None /\
                      _stream x' = Some s /\ _streamDrained x' = true).
    { unfold getBuffer, async, catch in Hget.
      rewrite (bind_inr _ _ _ _ _ (deref_Some _ _ _ _ Hx)), Hd, Hb, Hf, Hs in Hget.
      cbn [truthy orb] in Hget.
      rewrite (bind_inr _ _ _ _ _ (_getBufferFromStream_stream _ _ _ _ _ _ Hx Hbf Hsd Hf Hs Hst))
        in Hget.
      injection Hget as _ <-. cbn in Hx'.
      rewrite list_lookup_insert_eq in Hx' by (eapply lookup_lt_Some, Hx).
      injection Hx' as <-. cbn. auto. }
    destruct Hfields as (Hp' & Hf' & Hs' & Hsd').
    unfold getStream. rewrite (bind_inr _ _ _ _ _ (deref_Some _ _ _ _ Hx')), Hd', Hb', Hf', Hs'.
    cbn [truthy orb].
    rewrite (bind_inl _ _ _ _ _ (_getStream_drained _ _ _ Hx' Hsd')), Hp'. reflexivity.
  - rewrite <- (flying_0 _ _ _ _ _ _ _ B) at 1. apply emits_landing; [exact B|lia..].
  - apply (shared_await _ _ _ _ _ _ _ B). left. reflexivity.
Qed.

(** X7. A resource whose stream was handed out by [getStream] cannot be
    cloned: [clone] is rejected with the error for a drained stream and
    makes no resource. The rejected promise stays in [_buffering]. *)
Theorem clone_after_getStream_is_rejected w x st s :
  resources w !! this = Some x -> stats w !! _statInfo x = Some st ->
  _contentDrained x = false -> _streamDrained x = false ->
  _buffer x = None -> _buffering x = None ->
  _createStream x = None -> _stream x = Some s ->
  exists w1 q w2 y p,
    getStream this w = (inr s, w1) /\
    clone this w1 = (inr q, w2) /\
    clone_new q w2 = (inl (StreamDrained (_path x)), w2) /\
    length (resources w2) = length (resources w) /\
    resources w2 !! this = Some y /\ _buffering y = Some p /\
    promises w2 !! p = Some (Rejected (StreamDrained (_path x))).
Proof.
  intros Hx Hst Hd Hsd Hb Hbf Hf Hs.
  pose proof (getStream_stream this w x s Hx Hd Hb Hf Hs Hsd) as Hget.
  set (x1 := set_contentDrained true (set_streamDrained true x)) in Hget.
  set (w1 := with_resources (<[this := x1]>) w) in Hget.
  assert (Hx1 : resources w1 !! this = Some x1) by (eapply lookup_modified, Hx).
  assert (Hst1 : stats w1 !! _statInfo x1 = Some st) by exact Hst.
  set (w0 := with_stats (fun l => l ++ [st]) w1).
  set (p := length (promises w)).
  set (w2 := with_resources (<[this := set_buffering (Some p) x1]>)
               (with_promises (fun l => l ++ [Rejected (StreamDrained (_path x))]) w0)).
  assert (Hclone : clone this w1 =
            (inr (Then p (fun b => clone_options x1 (length (stats w)) (Some b) None)), w2)).
  { unfold clone, _getCloneOptions, async, catch.
    rewrite (bind_inr _ _ _ _ _ (deref_Some _ _ _ _ Hx1)).
    rewrite (bind_inr _ _ _ _ _ (deref_Some _ _ _ _ Hst1)).
    erewrite bind_inr; [|reflexivity]. cbn [_stream x1 set_contentDrained set_streamDrained].
    rewrite Hs.
    erewrite bind_inr;
      [|exact (_getBufferFromStream_drained w0 x1 Hx1 Hbf eq_refl)].
    reflexivity. }
  assert (Hp : promises w2 !! p = Some (Rejected (StreamDrained (_path x))))
    by (cbn; apply list_lookup_middle; reflexivity).
  exists w1, (Then p (fun b => clone_options x1 (length (stats w)) (Some b) None)), w2,
    (set_buffering (Some p) x1), p.
  split; [exact Hget|]. split; [exact Hclone|]. split.
  { unfold clone_new. cbn [await]. rewrite Hp. reflexivity. }
  split; [cbn; rewrite !length_insert; reflexivity|].
  split; [cbn; apply list_lookup_insert_eq; rewrite length_insert;
          eapply lookup_lt_Some, Hx|].
  split; [reflexivity|exact Hp].
Qed.


(** X9. Content that is set while a stream is buffered does not last: when
    the stream ends, its [end] listener calls [setBuffer] with the chunks
    and the content that was set is gone. *)
Theorem content_set_during_buffering_is_overwritten w x s p cs op :
  buffering this s p cs End x w ->
  content_setter this op ->
  exists w2 y,
    emits (S (length cs)) s (step op w) = (inr tt, w2) /\
    resources w2 !! this = Some y /\
    _buffer y = Some (concat cs) /\ _stream y = None /\ _createStream y = None /\
    getBuffer this w2 = (inr (Resolve (concat cs)), w2).
Proof.
  intros B Hop. pose proof B as [Hx Hp Hok Hst Hpr].
  assert (Hstep : exists y0, step op w = with_resources (<[this := y0]>) (touch (_source x) w) /\
                             _buffering y0 = Some p /\ _source y0 = _source x).
  { destruct Hop as [b|str|a]; cbn [step]; unfold setString;
      rewrite ?(setBuffer_eq _ _ _ _ Hx Hok), ?(setStream_eq _ _ _ _ Hx Hok);
      eexists; (split; [reflexivity|]); try destruct a; auto. }
  destruct Hstep as (y0 & -> & Hp0 & Hsrc0).
  set (w1 := with_resources (<[this := y0]>) (touch (_source x) w)).
  assert (B1 : buffering this s p cs End y0 w1).
  { constructor.
    - eapply lookup_modified. rewrite touch_resources. exact Hx.
    - exact Hp0.
    - intros r Hr. rewrite Hsrc0 in Hr. subst w1. cbn.
      destruct (_source x) as [r'|] eqn:Er; [|done]. injection Hr as ->. cbn.
      apply list_lookup_insert_is_Some. apply Hok. exact Er.
    - subst w1. destruct (_source x); exact Hst.
    - subst w1. destruct (_source x); exact Hpr. }
  exists (landed this s p cs y0 w1),
    (set_buffering None (set_content None None (Some (concat cs)) y0)). split.
  { rewrite <- (flying_0 _ _ _ _ _ _ _ B1) at 1. apply emits_landing; [exact B1|lia..]. }
  split; [cbn; apply list_lookup_insert_eq; eapply lookup_lt_Some,
          (buffering_resource _ _ _ _ _ _ _ B1)|].
  repeat split. apply (getBuffer_landed _ _ _ _ _ _ _ B1).
Qed.

End Twice.


(** ** One resource and the others *)

Section Isolation.
Context `{Runtime} (other : ref) (v : Resource).

Lemma other_heaps {A} (m : M A) :
  (forall w, resources (m w).2 = resources w) -> keeps (untouched_resource other v) m.
Proof. intros Hm w Hw. unfold untouched_resource. rewrite Hm. exact Hw. Qed.

Lemma other_modifyResource r f :
  r <> other -> keeps (untouched_resource other v) (modifyResource r f).
Proof.
  intros Hr w Hw. unfold untouched_resource, modifyResource, bind, deref in *.
  destruct (resources w !! r); cbn; [|exact Hw].
  rewrite list_lookup_insert_ne by exact Hr. exact Hw.
Qed.

Create HintDb other.

Ltac other_step :=
  first
    [ solve [eauto 2 with other nocore]
    | apply keeps_ret | apply keeps_throw | apply keeps_deref
    | apply other_modifyResource; assumption
    | apply keeps_bind; [|intros ?]
    | apply keeps_catch; [|intros ?]
    | apply other_heaps; reflexivity
    | match goal with
      | |- keeps _ (match ?x with _ => _ end) => destruct x
      | |- keeps _ (if ?x then _ else _) => destruct x
      end ].

Ltac other_auto := repeat other_step.

Lemma other_settle p s : keeps (untouched_resource other v) (settle p s).
Proof. unfold settle. other_auto. Qed.
#[local] Hint Resolve other_settle : other.

Lemma other_call f : keeps (untouched_resource other v) (call f).
Proof. unfold call. other_auto. Qed.
#[local] Hint Resolve other_call : other.

Lemma other_on s l : keeps (untouched_resource other v) (on s l).
Proof. unfold on. other_auto. Qed.
#[local] Hint Resolve other_on : other.

Lemma other_setBuffer r b : r <> other -> keeps (untouched_resource other v) (setBuffer r b).
Proof. intros Hr. unfold setBuffer. other_auto. Qed.
#[local] Hint Resolve other_setBuffer : other.

Lemma other_setStream r a : r <> other -> keeps (untouched_resource other v) (setStream r a).
Proof. intros Hr. unfold setStream. other_auto. Qed.

Lemma other__getStream r : r <> other -> keeps (untouched_resource other v) (_getStream r).
Proof. intros Hr. unfold _getStream. other_auto. Qed.
#[local] Hint Resolve other__getStream : other.

Lemma other__getBufferFromStream r :
  r <> other -> keeps (untouched_resource other v) (_getBufferFromStream r).
Proof. intros Hr. unfold _getBufferFromStream, executor. other_auto. Qed.
#[local] Hint Resolve other__getBufferFromStream : other.

Lemma other_getBuffer r : r <> other -> keeps (untouched_resource other v) (getBuffer r).
Proof. intros Hr. unfold getBuffer, async. other_auto. Qed.
#[local] Hint Resolve other_getBuffer : other.

Lemma other_constructor o : keeps (untouched_resource other v) (constructor o).
Proof.
  intros w Hw. destruct (constructor_cases o w) as [[e ->]|(_ & _ & _ & ->)]; [exact Hw|].
  unfold untouched_resource. cbn. apply lookup_app_l_Some, Hw.
Qed.

Lemma other_clone_new q : keeps (untouched_resource other v) (clone_new q).
Proof.
  intros w Hw. unfold clone_new. destruct (await w q) as [[e|o]|]; try exact Hw.
  unfold bind. pose proof (other_constructor o w Hw) as Hc.
  destruct (constructor o w) as [[e|c] w']; exact Hc.
Qed.

Lemma other_getString r : r <> other -> keeps (untouched_resource other v) (getString r).
Proof. intros Hr. unfold getString. other_auto. Qed.

Lemma other_getStream r : r <> other -> keeps (untouched_resource other v) (getStream r).
Proof. intros Hr. unfold getStream, PassThrough_end. other_auto. Qed.

Lemma other_getSize r : r <> other -> keeps (untouched_resource other v) (getSize r).
Proof. intros Hr. unfold getSize, async. other_auto. Qed.

Lemma other_setPath r p : r <> other -> keeps (untouched_resource other v) (setPath r p).
Proof. intros Hr. unfold setPath. other_auto. Qed.

Lemma other_pushCollection r n :
  r <> other -> keeps (untouched_resource other v) (pushCollection r n).
Proof. intros Hr. unfold pushCollection. other_auto. Qed.

Lemma other_setProject r p :
  r <> other -> keeps (untouched_resource other v) (setProject r p).
Proof. intros Hr. unfold setProject. other_auto. Qed.

Lemma other_clone r : r <> other -> keeps (untouched_resource other v) (clone r).
Proof. intros Hr. unfold clone, _getCloneOptions, async. other_auto. Qed.

(** X14. A method call on one resource leaves the fields of every other
    resource as they are, and so does the constructor, also when [clone]
    calls it: a clone and its original share the source handle and
    nothing else. *)
Theorem methods_leave_other_resources_alone op w :
  resources w !! other = Some v ->
  (forall r, subject op = Some r -> r <> other) ->
  (forall s, op <> Emit s) ->
  resources (step op w) !! other = Some v.
Proof.
  intros Hw Hsub Hemit.
  destruct op; cbn [step]; try specialize (Hsub r eq_refl).
  - apply other_getBuffer; assumption.
  - apply other_getString; assumption.
  - apply other_getStream; assumption.
  - apply other_getSize; assumption.
  - apply other_setBuffer; assumption.
  - apply other_setBuffer; assumption.
  - apply other_setStream; assumption.
  - apply other_setPath; assumption.
  - apply other_pushCollection; assumption.
  - apply other_setProject; assumption.
  - apply other_clone; assumption.
  - apply other_clone_new, Hw.
  - apply other_constructor, Hw.
  - destruct (Hemit s eq_refl).
Qed.

End Isolation.

Section Touch.
Context `{Runtime} (this : ref).

(** X15. Each of [setBuffer], [setString] and [setStream] leaves the flag
    of the source handle of its resource up, whatever it was, and leaves
    every other source handle as it is. *)
Theorem content_setters_raise_modified w x s op :
  resources w !! this = Some x -> _source x = Some s -> is_Some (sources w !! s) ->
  content_setter this op ->
  sources (step op w) !! s = Some {| modified := true |} /\
  forall s', s' <> s -> sources (step op w) !! s' = sources w !! s'.
Proof.
  intros Hx Hs Hsome Hop.
  assert (Hok : source_ok w x).
  { intros s' Hs'. rewrite Hs in Hs'. injection Hs' as <-. exact Hsome. }
  assert (Hstep : exists y, step op w = with_resources (<[this := y]>) (touch (_source x) w)).
  { destruct Hop as [b|str|a]; cbn [step]; unfold setString;
      rewrite ?(setBuffer_eq _ _ _ _ Hx Hok), ?(setStream_eq _ _ _ _ Hx Hok); eauto. }
  destruct Hstep as [y ->]. rewrite Hs. cbn. split.
  - apply list_lookup_insert_eq. destruct Hsome as [src Hsrc]. eapply lookup_lt_Some, Hsrc.
  - intros s' Hne. apply list_lookup_insert_ne. auto.
Qed.

End Touch.


(** ** The further properties at concrete resources *)

Lemma constructor_throws_early_witness :
  constructor (only_path EmptyString) two_streams = (inl MissingPath, two_streams) /\
  forall this w', constructor buffer_parameters two_streams = (inr this, w') -> this = 0.
Proof.
  split.
  - apply (proj1 (constructor_throws_early_or_adds_one_resource _ _)). reflexivity.
  - intros this w' Hc.
    apply (proj2 (proj2 (proj2 (constructor_throws_early_or_adds_one_resource _ _)))) in Hc.
    apply Hc.
Defined.

Lemma content_stays_exclusive_witness :
  all_exclusive two_streams /\
  forall r x, resources (run busy two_streams) !! r = Some x -> exclusive x.
Proof.
  assert (Hw : all_exclusive two_streams) by constructor.
  split; [exact Hw|]. exact (content_stays_exclusive busy two_streams Hw).
Defined.

Lemma no_content_witness :
  resources (constructor (only_path "/a.js") (empty_world 0)).2 !! 0 =
    Some (initial (only_path "/a.js") (empty_world 0)) /\
  getStream 0 (constructor (only_path "/a.js") (empty_world 0)).2 =
    (inl (NoContent "/a.js"), (constructor (only_path "/a.js") (empty_world 0)).2).
Proof.
  split; [reflexivity|].
  apply (no_content_is_an_error 0 _ (initial (only_path "/a.js") (empty_world 0)));
    reflexivity.
Defined.

Lemma setBuffer_then_read_witness :
  resources with_stream !! 0 = Some stream_fields /\
  source_ok with_stream stream_fields /\
  exists w', setBuffer 0 [x68; x69] with_stream = (inr tt, w') /\
             getBuffer 0 w' = (inr (Resolve [x68; x69]), w') /\
             getSize 0 w' = (inr (Resolve 2), w').
Proof.
  assert (Hok : source_ok with_stream stream_fields)
    by (apply (source_ok_0 _ _ {| modified := false |}); reflexivity).
  split; [reflexivity|]. split; [exact Hok|].
  destruct (proj1 (setBuffer_then_read 0 with_stream stream_fields eq_refl Hok) [x68; x69])
    as (w' & Hset & Hget & Hsize & _).
  exists w'. auto.
Defined.

Lemma getStream_hands_out_witness :
  resources with_buffer !! 0 = Some buffer_fields /\
  exists w', getStream 0 with_buffer = (inr 2, w') /\
             streams w' !! 2 = Some (untouched [[x68; x69]] End).
Proof.
  split; [reflexivity|].
  destruct (proj1 (getStream_hands_out 0 with_buffer buffer_fields eq_refl eq_refl)
              [x68; x69] eq_refl) as (cs & Hget & _ & Hcs & _).
  rewrite (Hcs ltac:(discriminate)) in Hget.
  eexists. split; [exact Hget|reflexivity].
Defined.

Lemma getStream_during_buffering_witness :
  resources with_stream !! 0 = Some stream_fields /\
  source_ok with_stream stream_fields /\
  exists p w1,
    getBuffer 0 with_stream = (inr (Then p id), w1) /\
    getStream 0 w1 = (inl (StreamDrained "/a.js"), w1).
Proof.
  assert (Hok : source_ok with_stream stream_fields)
    by (apply (source_ok_0 _ _ {| modified := false |}); reflexivity).
  split; [reflexivity|]. split; [exact Hok|].
  destruct (getStream_during_buffering_is_refused 0 with_stream stream_fields 1 hello
              eq_refl Hok eq_refl eq_refl eq_refl eq_refl eq_refl eq_refl eq_refl)
    as (p & w1 & w2 & Hget & Hstream & _).
  exists p, w1. auto.
Defined.

Lemma clone_after_getStream_witness :
  resources with_stream !! 0 = Some stream_fields /\
  stats with_stream !! 0 = Some (default_statInfo 0) /\
  exists w1 q w2,
    getStream 0 with_stream = (inr 1, w1) /\
    clone 0 w1 = (inr q, w2) /\
    clone_new q w2 = (inl (StreamDrained "/a.js"), w2) /\
    length (resources w2) = 1.
Proof.
  split; [reflexivity|]. split; [reflexivity|].
  destruct (clone_after_getStream_is_rejected 0 with_stream stream_fields
              (default_statInfo 0) 1 eq_refl eq_refl eq_refl eq_refl eq_refl eq_refl
              eq_refl eq_refl)
    as (w1 & q & w2 & y & p & Hget & Hclone & Hnew & Hlen & _).
  exists w1, q, w2. auto.
Defined.


Lemma buffering_hello_is_buffering :
  buffering 0 1 0 hello End
    (set_buffering (Some 0) (set_streamDrained true stream_fields)) buffering_hello.
Proof.
  constructor; try reflexivity.
  apply (source_ok_0 _ _ {| modified := false |}); reflexivity.
Defined.

Lemma content_set_during_buffering_witness :
  exists w2 y,
    emits 3 1 (step (SetString 0 "x") buffering_hello) = (inr tt, w2) /\
    resources w2 !! 0 = Some y /\ _buffer y = Some (concat hello).
Proof.
  destruct (content_set_during_buffering_is_overwritten 0 buffering_hello _ 1 0 hello
              (SetString 0 "x") buffering_hello_is_buffering (setter_string 0 "x"))
    as (w2 & y & Hemits & Hy & Hb & _).
  exists w2, y. auto.
Defined.

Lemma getStatInfo_never_changes_witness :
  identified 0 0 (default_statInfo 0) (Some 0) with_buffer /\
  getStatInfo 0 (run (skipn 2 busy) with_buffer) = (inr 0, run (skipn 2 busy) with_buffer) /\
  stats (run (skipn 2 busy) with_buffer) !! 0 = Some (default_statInfo 0).
Proof.
  assert (Hid : identified 0 0 (default_statInfo 0) (Some 0) with_buffer)
    by (exists buffer_fields; repeat split).
  split; [exact Hid|].
  destruct (getStatInfo_and_getSource_never_change 0 0 (default_statInfo 0) (Some 0)
              (skipn 2 busy) with_buffer Hid) as (Hstat & Hinfo & _).
  auto.
Defined.

Lemma project_is_never_replaced_witness :
  assigned 0 app with_project /\
  getProject 0 (run [SetProject 0 lib; SetPath 0 "/b.js"] with_project) =
    (inr (Some app), run [SetProject 0 lib; SetPath 0 "/b.js"] with_project).
Proof.
  assert (Ha : assigned 0 app with_project) by (eexists; split; reflexivity).
  split; [exact Ha|].
  apply (project_is_never_replaced 0 app [SetProject 0 lib; SetPath 0 "/b.js"]
           with_project Ha).
Defined.

Lemma collections_are_append_only_witness :
  exists x x',
    resources found !! 0 = Some x /\
    resources (run (skipn 2 busy) found) !! 0 = Some x' /\
    _collections x = ["outer"; "inner"] /\
    _collections x `prefix_of` _collections x'.
Proof.
  destruct (collections_are_append_only 0
              (set_collections ["outer"; "inner"] buffer_fields) (skipn 2 busy) found eq_refl)
    as (x' & Hx' & Hpre).
  eexists _, x'. split; [reflexivity|]. split; [exact Hx'|]. split; [reflexivity|exact Hpre].
Defined.

Lemma getPathTree_witness :
  getPathTree 0 found =
    (inr (Object [("/a.js", Object [("inner", Object [("outer", Object [])])])]), found).
Proof.
  exact (proj1 (getPathTree_nests_latest_collection_first 0 found
                  (set_collections ["outer"; "inner"] buffer_fields) eq_refl)).
Defined.

Lemma methods_leave_other_resources_alone_witness :
  resources (run (take 2 busy) two_streams) !! 1 =
    Some (initial callback_parameters with_buffer) /\
  resources (step (SetString 0 "x") (run (take 2 busy) two_streams)) !! 1 =
    Some (initial callback_parameters with_buffer).
Proof.
  split; [reflexivity|].
  apply (methods_leave_other_resources_alone 1 (initial callback_parameters with_buffer)
           (SetString 0 "x") (run (take 2 busy) two_streams) eq_refl).
  - intros r [= <-]. discriminate.
  - intros s. discriminate.
Defined.

Lemma content_setters_raise_modified_witness :
  sources with_stream !! 0 = Some {| modified := false |} /\
  sources (step (SetStream 0 (ACallback hello_callback)) with_stream) !! 0 =
    Some {| modified := true |}.
Proof.
  split; [reflexivity|].
  apply (content_setters_raise_modified 0 with_stream stream_fields 0
           (SetStream 0 (ACallback hello_callback)) eq_refl eq_refl
           (mk_is_Some _ _ eq_refl) (setter_stream 0 _)).
Defined.

Lemma constructor_keeps_statInfo_witness :
  well_formed two_streams buffer_parameters /\
  exists this w', constructor buffer_parameters two_streams = (inr this, w') /\
                  getStatInfo this w' = (inr 0, w') /\
                  stats w' = [default_statInfo 0].
Proof.
  assert (Hwf : well_formed two_streams buffer_parameters).
  { split; [reflexivity|]. intros s [= <-]. eexists. reflexivity. }
  split; [exact Hwf|].
  destruct (constructor_keeps_statInfo buffer_parameters two_streams Hwf eq_refl)
    as (this & w' & Hnew & _ & Hdefault).
  destruct (Hdefault eq_refl) as (Hget & Hstats & _).
  exists this, w'. auto.
Defined.
